(** * Inventory ledger of the stock-management API

    A shallow embedding of the routes of [server.js] and of its
    authenticated variant that read or write the stock:
    [PUT /api/inventory/:productId/adjust],
    [GET /api/inventory/low-stock], [POST /api/products],
    [DELETE /api/products/:id], [DELETE /api/categories/:id],
    [GET /api/stock-movements], [GET /api/products],
    [GET /api/dashboard/stats] and [authenticateToken], together with
    the part of JavaScript, of the connection pool and of the SQL
    storage they rely on. *)

From Stdlib Require Import ZArith List String Ascii Bool Lia.
From Stdlib Require Import Permutation Sorted.
From Stdlib Require Import DecimalString DecimalPos.
Import ListNotations.

Open Scope string_scope.
Open Scope list_scope.
Open Scope Z_scope.

(** The value of the digits read so far by a numeral reader. *)
Definition so_far (acc : option Z) : Z :=
  match acc with
  | Some a => a
  | None => 0
  end.

(** ** JavaScript values *)

Module JS.

(** A JavaScript number.  The handler only ever adds, subtracts and
    compares integers read from an INTEGER column and integers produced
    by [parseInt], so a number is an integer or [NaN].  A Number is
    exact up to 2^53; an integer beyond that stands for the Number
    nearest to it, which is how [number_to_string] prints it, and is
    refused by every INTEGER column it is written to. *)
Inductive number :=
| NaN
| Num (z : Z).

(** The scalar values a JSON request body can hold; [VUndefined] is a
    field that is absent from the body. *)
Inductive value :=
| VUndefined
| VNull
| VBool (b : bool)
| VNumber (n : number)
| VString (s : string).

Definition add (a b : number) : number :=
  match a, b with
  | Num x, Num y => Num (x + y)
  | _, _ => NaN
  end.

Definition sub (a b : number) : number :=
  match a, b with
  | Num x, Num y => Num (x - y)
  | _, _ => NaN
  end.

(** [a < b]; any comparison with [NaN] is false. *)
Definition lt (a b : number) : bool :=
  match a, b with
  | Num x, Num y => x <? y
  | _, _ => false
  end.

(** ToBoolean: what [!v] negates. *)
Definition truthy (v : value) : bool :=
  match v with
  | VUndefined => false
  | VNull => false
  | VBool b => b
  | VNumber NaN => false
  | VNumber (Num z) => negb (z =? 0)
  | VString s => negb (String.eqb s EmptyString)
  end.

(** The decimal numeral of an integer. *)
Definition decimal_numeral (z : Z) : string :=
  NilZero.string_of_int (Z.to_int z).

(** The Number nearest to the integer [a >= 0], ties to even, as an
    integer; [None] when it is Infinity.  A Number has 53 significant
    bits. *)
Definition nearest_double (a : Z) : option Z :=
  let e := Z.log2 a in
  if e <? 53 then Some a
  else
    let ulp := 2 ^ (e - 52) in
    let q := a / ulp in
    let r := a mod ulp in
    let half := ulp / 2 in
    let m := if (half <? r) || ((r =? half) && Z.odd q) then q + 1 else q in
    if 2 ^ 1024 <=? m * ulp then None else Some (m * ulp).

Definition rounds_to (d v : Z) : bool :=
  match nearest_double v with
  | Some d' => d' =? d
  | None => false
  end.

(** The integer with the fewest significant digits whose Number is [d]:
    of several with as few digits the nearest to [d], of two equally
    near the even one.  [n] is the number of digits of [d]; [k] digits
    are tried now, one more after each failure.  17 digits tell any two
    Numbers apart. *)
Fixpoint shortest (fuel : nat) (k n d : Z) : Z :=
  match fuel with
  | O => d
  | S fuel' =>
      if n <=? k then d
      else
        let p := 10 ^ (n - k) in
        let lo := d / p * p in
        let hi := lo + p in
        match rounds_to d lo, rounds_to d hi with
        | true, true =>
            if d - lo <? hi - d then lo
            else if hi - d <? d - lo then hi
            else if Z.even (d / p) then lo else hi
        | true, false => lo
        | false, true => hi
        | false, false => shortest fuel' (k + 1) n d
        end
  end.

(** A numeral without the zeros at its end. *)
Fixpoint drop_zeros (s : string) : string :=
  match s with
  | EmptyString => EmptyString
  | String c s' =>
      match drop_zeros s' with
      | EmptyString =>
          if Ascii.eqb c "0" then EmptyString else String c EmptyString
      | rest => String c rest
      end
  end.

(** Number::toString of an integer of 2^53 or more: with up to 21
    digits the numeral, with more the exponent form. *)
Definition large_to_string (v : Z) : string :=
  let digits := decimal_numeral v in
  let n := Z.of_nat (String.length digits) in
  if n <=? 21 then digits
  else
    match drop_zeros digits with
    | EmptyString => digits
    | String c EmptyString =>
        String c ("e+" ++ decimal_numeral (n - 1))
    | String c rest =>
        String c ("." ++ rest ++ "e+" ++ decimal_numeral (n - 1))
    end.

Definition magnitude_to_string (a : Z) : string :=
  if a <? 2 ^ 53 then decimal_numeral a
  else
    match nearest_double a with
    | None => "Infinity"
    | Some d =>
        large_to_string
          (shortest 17 1 (Z.of_nat (String.length (decimal_numeral d))) d)
    end.

(** Number::toString: the numeral of an integer below 2^53; from there
    on the digits that tell the Number apart, padded with zeros, and
    from 1e21 on the exponent form ([1e+21]). *)
Definition number_to_string (n : number) : string :=
  match n with
  | NaN => "NaN"
  | Num z =>
      if z <? 0 then String "-" (magnitude_to_string (- z))
      else magnitude_to_string z
  end.

(** ToString *)
Definition to_string (v : value) : string :=
  match v with
  | VUndefined => "undefined"
  | VNull => "null"
  | VBool true => "true"
  | VBool false => "false"
  | VNumber n => number_to_string n
  | VString s => s
  end.

(** White space and line terminators among the code units below 256. *)
Definition is_white (c : ascii) : bool :=
  let n := nat_of_ascii c in
  ((9 <=? n) && (n <=? 13) || (n =? 32) || (n =? 160))%nat.

Fixpoint trim_start (s : string) : string :=
  match s with
  | String c s' => if is_white c then trim_start s' else s
  | EmptyString => EmptyString
  end.

(** The value of a character as a digit, letters counting from ten. *)
Definition digit_value (c : ascii) : option Z :=
  let n := Z.of_nat (nat_of_ascii c) in
  if (48 <=? n) && (n <=? 57) then Some (n - 48)
  else if (97 <=? n) && (n <=? 122) then Some (n - 87)
  else if (65 <=? n) && (n <=? 90) then Some (n - 55)
  else None.

Definition radix_digit (R : Z) (c : ascii) : option Z :=
  match digit_value c with
  | Some d => if d <? R then Some d else None
  | None => None
  end.

(** Reads the longest prefix of radix-[R] digits; [acc] is the value of
    the digits read so far, [None] when there are none yet. *)
Fixpoint read_digits (R : Z) (s : string) (acc : option Z) : option Z :=
  match s with
  | String c s' =>
      match radix_digit R c with
      | Some d =>
          read_digits R s' (Some (R * so_far acc + d))
      | None => acc
      end
  | EmptyString => acc
  end.

(** [parseInt(string)] with no radix argument: leading white space is
    dropped, a sign is read, a [0x] or [0X] prefix selects radix 16, and
    the longest run of digits is the result; no digit gives [NaN].
    Whatever follows the digits is ignored. *)
Definition read_sign (s : string) : Z * string :=
  match s with
  | String "-" rest => (-1, rest)
  | String "+" rest => (1, rest)
  | _ => (1, s)
  end.

Definition read_radix (s : string) : Z * string :=
  match s with
  | String "0" (String "x" rest) => (16, rest)
  | String "0" (String "X" rest) => (16, rest)
  | _ => (10, s)
  end.

Definition parseInt_string (inputString : string) : number :=
  let '(sign, s1) := read_sign (trim_start inputString) in
  let '(R, s2) := read_radix s1 in
  match read_digits R s2 None with
  | None => NaN
  | Some mathInt => Num (sign * mathInt)
  end.

(** [parseInt(v)]: the argument is first converted with ToString. *)
Definition parseInt (v : value) : number :=
  parseInt_string (to_string v).

End JS.

Import JS.

(** ** The tables and the storage layer

    The tables are the ones [initializeDatabase] creates.  The columns
    the inventory routes neither read nor write (serial ids, time
    stamps, product descriptions) are left out.  The column checks and
    the transaction rules are those of the PostgreSQL server the pool
    connects to. *)

Module Storage.

Record category := {
  c_id : Z;
  c_name : string
}.

Record product := {
  p_id : Z;
  p_name : string;
  p_sku : option string;
  p_price : string;
  p_category_id : option Z
}.

(** [inventory]: [quantity INTEGER NOT NULL DEFAULT 0]; the two stock
    levels and the location may be NULL. *)
Record inventory_row := {
  product_id : Z;
  quantity : Z;
  min_stock_level : option Z;
  max_stock_level : option Z;
  location : option string
}.

(** [stock_movements]; [user_id] is the column the authenticated
    variant of the server adds. *)
Record movement := {
  m_product_id : Z;
  m_user_id : option Z;
  m_movement_type : string;
  m_quantity : Z;
  m_reference_number : option string;
  m_notes : option string
}.

(** [users] holds the ids of the table [users] of the authenticated
    variant, which [stock_movements.user_id] references; [server.js]
    has neither the table nor the column. *)
Record store := {
  categories : list category;
  products : list product;
  inventory : list inventory_row;
  stock_movements : list movement;
  users : list Z
}.

(** *** Query parameters

    The driver sends every parameter as text: [null] and [undefined]
    become NULL, anything else goes through [toString()]. *)
Definition bind (v : value) : option string :=
  match v with
  | VUndefined | VNull => None
  | _ => Some (to_string v)
  end.

Definition is_space (c : ascii) : bool :=
  let n := nat_of_ascii c in
  ((9 <=? n) && (n <=? 13) || (n =? 32))%nat.

Fixpoint skip_spaces (s : string) : string :=
  match s with
  | String c s' => if is_space c then skip_spaces s' else s
  | EmptyString => EmptyString
  end.

(** Reads the digits of an integer in radix [R] and returns their value
    with the text that follows them; the outer [None] is a syntax
    error.  One underscore may stand between two digits, and, where
    [lead] allows it (after a radix prefix), before the first. *)
Fixpoint read_integer (R : Z) (lead : bool) (s : string) (acc : option Z)
  : option (option Z * string) :=
  match s with
  | String c s' =>
      match radix_digit R c with
      | Some d => read_integer R lead s' (Some (R * so_far acc + d))
      | None =>
          if Ascii.eqb c "_" then
            match acc, lead with
            | None, false => None
            | _, _ =>
                match s' with
                | String c' _ =>
                    match radix_digit R c' with
                    | Some _ => read_integer R lead s' acc
                    | None => None
                    end
                | EmptyString => None
                end
            end
          else Some (acc, s)
      end
  | EmptyString => Some (acc, EmptyString)
  end.

(** The radix prefixes [0x], [0o] and [0b], in either case. *)
Definition integer_radix (s : string) : Z * bool * string :=
  match s with
  | String "0" (String "x" rest) | String "0" (String "X" rest) =>
      (16, true, rest)
  | String "0" (String "o" rest) | String "0" (String "O" rest) =>
      (8, true, rest)
  | String "0" (String "b" rest) | String "0" (String "B" rest) =>
      (2, true, rest)
  | _ => (10, false, s)
  end.

Definition int4_min : Z := - 2147483648.
Definition int4_max : Z := 2147483647.

Definition in_int4 (z : Z) : bool := (int4_min <=? z) && (z <=? int4_max).

Definition leading_sign (s : string) : Z * string :=
  match s with
  | String "-" rest => (-1, rest)
  | String "+" rest => (1, rest)
  | _ => (1, s)
  end.

(** The input syntax of an INTEGER column, as of PostgreSQL 16:
    optional spaces, an optional sign, an optional radix prefix, at
    least one digit of the radix, with single underscores between
    digits, optional spaces, and nothing else; the value has to fit 32
    bits.  Everything else is an error. *)
Definition int4_in (s : string) : option Z :=
  let '(sign, s1) := leading_sign (skip_spaces s) in
  let '(R, lead, s2) := integer_radix s1 in
  match read_integer R lead s2 None with
  | Some (Some n, rest) =>
      match skip_spaces rest with
      | EmptyString => if in_int4 (sign * n) then Some (sign * n) else None
      | _ => None
      end
  | _ => None
  end.

(** No text value may hold the character U+0000. *)
Fixpoint no_nul (s : string) : bool :=
  match s with
  | String c s' => negb (Ascii.eqb c Ascii.zero) && no_nul s'
  | EmptyString => true
  end.

(** Assignment to a [TEXT] column. *)
Definition text_in (s : string) : option string :=
  if no_nul s then Some s else None.

Fixpoint all_spaces (s : string) : bool :=
  match s with
  | String c s' => (Ascii.eqb c " ") && all_spaces s'
  | EmptyString => true
  end.

(** Assignment to a [VARCHAR(n)] column: a longer text is an error
    unless the excess is spaces, which are cut. *)
Definition varchar (n : nat) (s : string) : option string :=
  let len := String.length s in
  if negb (no_nul s) then None
  else if (len <=? n)%nat then Some s
  else if all_spaces (substring n (len - n) s) then Some (substring 0 n s)
  else None.

(** *** Statements

    The statements the adjust route sends over its client, and the two
    DELETE statements of the catalog routes. *)
Inductive stmt :=
| BEGIN
| COMMIT
| ROLLBACK
| SELECT_inventory (productId : Z)
| UPDATE_inventory (newQuantity : number) (productId : Z)
| INSERT_movement (productId : Z) (user_id : option Z)
    (movement_type quantity reference_number notes : value)
| DELETE_product (id : Z)
| DELETE_category (id : Z).

(** What a statement that passed its checks changes. *)
Inductive write :=
| SetQuantity (pid : Z) (q : Z)
| AddMovement (m : movement)
| RemoveProduct (id : Z)
| RemoveCategory (id : Z).

Definition set_quantity (pid q : Z) (r : inventory_row) : inventory_row :=
  if product_id r =? pid then
    {| product_id := product_id r;
       quantity := q;
       min_stock_level := min_stock_level r;
       max_stock_level := max_stock_level r;
       location := location r |}
  else r.

(** [DELETE FROM products WHERE id = $1]: the rows of [inventory] and of
    [stock_movements] that reference the product go with it (ON DELETE
    CASCADE). *)
Definition without_product (id : Z) (st : store) : store :=
  {| categories := categories st;
     products := filter (fun p => negb (p_id p =? id)) (products st);
     inventory := filter (fun i => negb (product_id i =? id)) (inventory st);
     stock_movements :=
       filter (fun m => negb (m_product_id m =? id)) (stock_movements st);
     users := users st |}.

Definition in_category (id : Z) (p : product) : bool :=
  match p_category_id p with
  | Some c => c =? id
  | None => false
  end.

Definition leave_category (id : Z) (p : product) : product :=
  if in_category id p then
    {| p_id := p_id p; p_name := p_name p; p_sku := p_sku p;
       p_price := p_price p; p_category_id := None |}
  else p.

(** [DELETE FROM categories WHERE id = $1] in the authenticated variant,
    where [products.category_id] is declared ON DELETE SET NULL. *)
Definition without_category_set_null (id : Z) (st : store) : store :=
  {| categories := filter (fun c => negb (c_id c =? id)) (categories st);
     products := map (leave_category id) (products st);
     inventory := inventory st;
     stock_movements := stock_movements st;
     users := users st |}.

Definition apply_write (st : store) (w : write) : store :=
  match w with
  | SetQuantity pid q =>
      {| categories := categories st;
         products := products st;
         inventory := map (set_quantity pid q) (inventory st);
         stock_movements := stock_movements st;
         users := users st |}
  | AddMovement m =>
      {| categories := categories st;
         products := products st;
         inventory := inventory st;
         stock_movements := stock_movements st ++ [m];
         users := users st |}
  | RemoveProduct id => without_product id st
  | RemoveCategory id => without_category_set_null id st
  end.

Definition apply_writes (st : store) (ws : list write) : store :=
  fold_left apply_write ws st.

Inductive reply :=
| Ok (rows : list inventory_row)
| Err (message : string).

(** The outcome of one statement on the rows it can see: the rows of a
    SELECT, the change of an UPDATE, INSERT or DELETE whose parameters
    fit their columns, or the error of the column or the key that
    refuses it.  The foreign key of [stock_movements.product_id] is not
    checked: the route inserts only after it found the inventory row of
    the product, which has the same foreign key. *)
Inductive effect :=
| Selected (rows : list inventory_row)
| Written (w : write)
| Refused (message : string)
| Control.

Definition nullable {A} (coerce : string -> option A) (p : option string)
  : option (option A) :=
  match p with
  | None => Some None
  | Some text => match coerce text with Some a => Some (Some a) | None => None end
  end.

Definition required {A} (coerce : string -> option A) (p : option string)
  : option A :=
  match p with
  | None => None
  | Some text => coerce text
  end.

(** [SELECT * FROM inventory WHERE product_id = $1].  The parameter is
    read as an INTEGER: one outside the range is refused.  No row of
    the INTEGER column holds such a product_id, so a parameter that
    finds a row is within the range. *)
Definition select_inventory (pid : Z) (visible : store) : effect :=
  match filter (fun r => product_id r =? pid) (inventory visible) with
  | [] =>
      if in_int4 pid then Selected []
      else Refused "value out of range for type integer"
  | rows => Selected rows
  end.

(** [UPDATE inventory SET quantity = $1, ... WHERE product_id = $2] *)
Definition update_inventory (q : number) (pid : Z) : effect :=
  match int4_in (number_to_string q) with
  | Some z => Written (SetQuantity pid z)
  | None => Refused "invalid input for type integer"
  end.

(** [user_id INTEGER REFERENCES users(id)]: a user id has to be the id
    of a row of [users]; NULL references nothing. *)
Definition references_user (uid : option Z) (visible : store) : bool :=
  match uid with
  | Some u => existsb (Z.eqb u) (users visible)
  | None => true
  end.

(** [INSERT INTO stock_movements (...) VALUES (...)] *)
Definition insert_movement (pid : Z) (uid : option Z)
    (mt q ref notes : value) (visible : store) : effect :=
  match required (varchar 50) (bind mt),
        required int4_in (bind q),
        nullable (varchar 100) (bind ref),
        nullable text_in (bind notes) with
  | Some mt', Some q', Some ref', Some notes' =>
      if references_user uid visible then
        Written (AddMovement
                   {| m_product_id := pid; m_user_id := uid;
                      m_movement_type := mt'; m_quantity := q';
                      m_reference_number := ref'; m_notes := notes' |})
      else Refused "violates foreign key constraint on user_id"
  | None, _, _, _ => Refused "null or too long for character varying(50)"
  | _, None, _, _ => Refused "invalid input for type integer"
  | _, _, None, _ => Refused "value too long for type character varying(100)"
  | _, _, _, None => Refused "invalid input for type text"
  end.

(** [DELETE FROM products WHERE id = $1 RETURNING *]: the id is read as
    an INTEGER; a statement that finds no row changes nothing. *)
Definition delete_product_row (id : Z) (visible : store) : effect :=
  if in_int4 id then
    if existsb (fun p => p_id p =? id) (products visible)
    then Written (RemoveProduct id)
    else Selected []
  else Refused "value out of range for type integer".

(** [DELETE FROM categories WHERE id = $1 RETURNING *], with the
    reference of the authenticated variant. *)
Definition delete_category_row (id : Z) (visible : store) : effect :=
  if in_int4 id then
    if existsb (fun c => c_id c =? id) (categories visible)
    then Written (RemoveCategory id)
    else Selected []
  else Refused "value out of range for type integer".

Definition effect_of (s : stmt) (visible : store) : effect :=
  match s with
  | BEGIN | COMMIT | ROLLBACK => Control
  | SELECT_inventory pid => select_inventory pid visible
  | UPDATE_inventory q pid => update_inventory q pid
  | INSERT_movement pid uid mt q ref notes =>
      insert_movement pid uid mt q ref notes visible
  | DELETE_product id => delete_product_row id visible
  | DELETE_category id => delete_category_row id visible
  end.

(** *** One client connection

    [committed] is what every connection sees.  A transaction the
    client has open holds its writes, which only this client sees until
    COMMIT.  An error inside a transaction aborts it: every further
    statement is refused until the transaction is ended, and ending it
    discards its writes.  [sent] records the statements sent so far,
    latest first. *)
Inductive txn_state :=
| Idle
| Open (ws : list write)
| Aborted.

Record db := {
  committed : store;
  txn : txn_state;
  sent : list stmt
}.

Definition pending (d : db) : list write :=
  match txn d with
  | Open ws => ws
  | _ => []
  end.

Definition visible (d : db) : store := apply_writes (committed d) (pending d).

(** Storage failures besides the column checks (a lost connection, a
    full disk): [faults s] is the error with which statement [s] fails. *)
Definition faults := stmt -> option string.

Definition reliable : faults := fun _ => None.

Definition after_error (t : txn_state) : txn_state :=
  match t with
  | Idle => Idle
  | _ => Aborted
  end.

Definition exec (f : faults) (s : stmt) (d : db) : reply * db :=
  let log := s :: sent d in
  let failed message :=
    (Err message,
     {| committed := committed d; txn := after_error (txn d); sent := log |}) in
  let done c t := (Ok [], {| committed := c; txn := t; sent := log |}) in
  match f s with
  | Some message => failed message
  | None =>
      match s, txn d with
      | ROLLBACK, _ => done (committed d) Idle
      | COMMIT, Aborted => done (committed d) Idle
      | _, Aborted => failed "current transaction is aborted"
      | COMMIT, _ => done (visible d) Idle
      | BEGIN, _ => done (committed d) (Open (pending d))
      | _, _ =>
          match effect_of s (visible d) with
          | Selected rows =>
              (Ok rows, {| committed := committed d; txn := txn d; sent := log |})
          | Written w =>
              match txn d with
              | Open ws => done (committed d) (Open (ws ++ [w]))
              | _ => done (apply_write (committed d) w) Idle
              end
          | Refused message => failed message
          | Control => done (committed d) (txn d)
          end
      end
  end.

End Storage.

Import Storage.

(** ** The routes *)

Module Server.

(** An [async] route body: it returns, or it awaits one statement on
    its client and goes on with the reply. *)
Inductive prog (A : Type) :=
| Ret (a : A)
| Query (s : stmt) (k : reply -> prog A).

Arguments Ret {A} a.
Arguments Query {A} s k.

Fixpoint run {A} (f : faults) (p : prog A) (d : db) : A * db :=
  match p with
  | Ret a => (a, d)
  | Query s k => let '(r, d') := exec f s d in run f (k r) d'
  end.

Inductive body :=
| ErrorBody (error : string)
| AdjustedBody (message : string) (old_quantity new_quantity : number).

Record response := {
  status : Z;
  json : body
}.

Definition number_eqb (a b : number) : bool :=
  match a, b with
  | NaN, NaN => true
  | Num x, Num y => x =? y
  | _, _ => false
  end.

Definition response_eqb (a b : response) : bool :=
  (status a =? status b) &&
  match json a, json b with
  | ErrorBody e1, ErrorBody e2 => String.eqb e1 e2
  | AdjustedBody m1 o1 n1, AdjustedBody m2 o2 n2 =>
      String.eqb m1 m2 && number_eqb o1 o2 && number_eqb n1 n2
  | _, _ => false
  end.

Record adjust_body := {
  quantity : value;
  movement_type : value;
  reference_number : value;
  notes : value
}.

(** [v === 'text'] *)
Definition is_string (text : string) (v : value) : bool :=
  match v with
  | VString s => String.eqb s text
  | _ => false
  end.

(** The outer [catch]: status 500 with
    [error.message || 'Internal server error']. *)
Definition internal_error (message : string) : response :=
  {| status := 500;
     json := ErrorBody (if String.eqb message EmptyString
                        then "Internal server error" else message) |}.

(** The inner [catch]: ROLLBACK, then the error is thrown again and
    reaches the outer [catch]; an error of the ROLLBACK itself replaces
    it.  [finally] releases the client. *)
Definition rollback_and_throw (error : string) : prog response :=
  Query ROLLBACK (fun r =>
    match r with
    | Ok _ => Ret (internal_error error)
    | Err error' => Ret (internal_error error')
    end).

(** [await client.query(...)] inside the inner [try]. *)
Definition await (s : stmt) (k : list inventory_row -> prog response)
  : prog response :=
  Query s (fun r =>
    match r with
    | Ok rows => k rows
    | Err error => rollback_and_throw error
    end).

Notation "'let*' rows ':=' 'await' s 'in' k" :=
  (await s (fun rows => k))
  (at level 10, rows name, s at level 9, k at level 200, only parsing).
Notation "'await' s ';;' k" :=
  (await s (fun _ => k))
  (at level 10, s at level 9, k at level 200, only parsing).

(** The [switch (movement_type)]: the new quantity, or the message of
    the error thrown. *)
Definition switch_movement_type (movement_type quantity : value)
    (current : number) : string + number :=
  if is_string "IN" movement_type then
    inr (add current (parseInt quantity))
  else if is_string "OUT" movement_type then
    let newQuantity := sub current (parseInt quantity) in
    if lt newQuantity (Num 0) then inl "Insufficient stock"
    else inr newQuantity
  else if is_string "ADJUSTMENT" movement_type then
    inr (parseInt quantity)
  else inl "Invalid movement type".

(** [PUT /api/inventory/:productId/adjust].  [user_id] is [None] in
    [server.js]; the authenticated variant of the server runs the same
    body after its token check and passes [req.user.id].  The route
    parameter is taken as the integer it denotes, and [pool.connect()]
    as giving a client. *)
Definition adjust (user_id : option Z) (productId : Z) (b : adjust_body)
  : prog response :=
  if negb (truthy (quantity b)) || negb (truthy (movement_type b)) then
    Ret {| status := 400;
           json := ErrorBody "Quantity and movement type are required" |}
  else
    await BEGIN ;;
    let* rows := await (SELECT_inventory productId) in
    match rows with
    | [] =>
        Ret {| status := 404; json := ErrorBody "Product inventory not found" |}
    | currentInventory :: _ =>
        let current := Num (Storage.quantity currentInventory) in
        match switch_movement_type (movement_type b) (quantity b) current with
        | inl message => rollback_and_throw message
        | inr newQuantity =>
            await (UPDATE_inventory newQuantity productId) ;;
            await (INSERT_movement productId user_id (movement_type b)
                     (quantity b) (reference_number b) (notes b)) ;;
            await COMMIT ;;
            Ret {| status := 200;
                   json := AdjustedBody "Inventory adjusted successfully"
                             current newQuantity |}
        end
    end.

(** Calls served one after the other on the same client. *)
Record call := {
  actor : option Z;
  target : Z;
  payload : adjust_body
}.

Fixpoint serve (f : faults) (calls : list call) (d : db) : db :=
  match calls with
  | [] => d
  | c :: calls' =>
      serve f calls' (snd (run f (adjust (actor c) (target c) (payload c)) d))
  end.

(** *** The low-stock listing *)

Record low_stock_row := {
  row : inventory_row;
  product_name : string;
  sku : option string;
  price : string;
  category_name : option string
}.

(** [LEFT JOIN categories c ON p.category_id = c.id] *)
Definition left_join_categories (st : store) (i : inventory_row) (p : product)
  : list low_stock_row :=
  let found :=
    match p_category_id p with
    | Some cid => filter (fun c => c_id c =? cid) (categories st)
    | None => []
    end in
  let joined name :=
    {| row := i; product_name := p_name p; sku := p_sku p;
       price := p_price p; category_name := name |} in
  match found with
  | [] => [joined None]
  | _ => map (fun c => joined (Some (c_name c))) found
  end.

(** [JOIN products p ON i.product_id = p.id] *)
Definition join_products (st : store) (i : inventory_row) : list low_stock_row :=
  flat_map (left_join_categories st i)
           (filter (fun p => product_id i =? p_id p) (products st)).

(** [WHERE i.quantity <= i.min_stock_level]; a NULL level selects
    nothing. *)
Definition is_low (i : inventory_row) : bool :=
  match min_stock_level i with
  | Some level => Storage.quantity i <=? level
  | None => false
  end.

(** [ORDER BY i.quantity ASC], rows of equal quantity in table order. *)
Fixpoint insert_by_quantity (x : low_stock_row) (l : list low_stock_row)
  : list low_stock_row :=
  match l with
  | [] => [x]
  | y :: l' =>
      if Storage.quantity (row x) <? Storage.quantity (row y)
      then x :: y :: l'
      else y :: insert_by_quantity x l'
  end.

Definition order_by_quantity (l : list low_stock_row) : list low_stock_row :=
  fold_left (fun sorted x => insert_by_quantity x sorted) l [].

(** [GET /api/inventory/low-stock]: the rows of the answer. *)
Definition low_stock (st : store) : list low_stock_row :=
  order_by_quantity (flat_map (join_products st) (filter is_low (inventory st))).

End Server.

Import Server.

(** ** Requests in flight together

    Node runs one route body until its next [await]; while the
    statement is with the server another request may run.  Two requests
    on two clients of the pool therefore interleave statement by
    statement.  Each statement sees the committed rows and the writes of
    its own transaction (the default isolation level, read committed),
    and an UPDATE waits while another open transaction has written the
    row it wants. *)

Module Concurrent.

Record request := {
  rest : prog response;
  client : txn_state
}.

Record system := {
  shared : store;
  first : request;
  second : request
}.

Inductive turn := First | Second.

Definition writes_row (pid : Z) (w : write) : bool :=
  match w with
  | SetQuantity pid' _ => pid' =? pid
  | _ => false
  end.

Definition holds_row (pid : Z) (t : txn_state) : bool :=
  match t with
  | Open ws => existsb (writes_row pid) ws
  | _ => false
  end.

(** Does statement [s] have to wait for the transaction [other]? *)
Definition waits (s : stmt) (other : txn_state) : bool :=
  match s with
  | UPDATE_inventory _ pid => holds_row pid other
  | _ => false
  end.

(** One statement of request [mine]; [None] when the request has
    returned or waits. *)
Definition advance (st : store) (mine other : request)
  : option (store * request) :=
  match rest mine with
  | Ret _ => None
  | Query s k =>
      if waits s (client other) then None
      else
        let '(r, d) :=
          exec reliable s {| committed := st; txn := client mine; sent := [] |} in
        Some (committed d, {| rest := k r; client := txn d |})
  end.

Definition step (t : turn) (sys : system) : option system :=
  match t with
  | First =>
      match advance (shared sys) (first sys) (second sys) with
      | Some (st, r) => Some {| shared := st; first := r; second := second sys |}
      | None => None
      end
  | Second =>
      match advance (shared sys) (second sys) (first sys) with
      | Some (st, r) => Some {| shared := st; first := first sys; second := r |}
      | None => None
      end
  end.

(** A schedule says whose statement the server takes next. *)
Fixpoint run_schedule (sched : list turn) (sys : system) : option system :=
  match sched with
  | [] => Some sys
  | t :: sched' =>
      match step t sys with
      | Some sys' => run_schedule sched' sys'
      | None => None
      end
  end.

(** The two answers, once both requests have returned. *)
Definition answers (sys : system) : option (response * response) :=
  match rest (first sys), rest (second sys) with
  | Ret r1, Ret r2 => Some (r1, r2)
  | _, _ => None
  end.

Definition stuck (sys : system) : Prop :=
  step First sys = None /\ step Second sys = None.

(** Every system in which no request can move, over all schedules;
    [None] when [fuel] statements were not enough. *)
Fixpoint explore (fuel : nat) (sys : system) : option (list system) :=
  match fuel with
  | O => None
  | S fuel' =>
      match step First sys, step Second sys with
      | None, None => Some [sys]
      | Some a, None => explore fuel' a
      | None, Some b => explore fuel' b
      | Some a, Some b =>
          match explore fuel' a, explore fuel' b with
          | Some la, Some lb => Some (la ++ lb)
          | _, _ => None
          end
      end
  end.

End Concurrent.

(** ** The vocabulary of the specification *)

Module Spec.

Inductive error_kind :=
| InvalidRequest
| NotFound
| InsufficientStock
| StorageError.

(** How section 6 of the specification maps an error kind to the
    answer: a 400-class status, a 404-class status, an error payload
    with the explanatory message, a 500-class status. *)
Definition reports (k : error_kind) (r : response) : Prop :=
  match k with
  | InvalidRequest => status r = 400
  | NotFound => status r = 404
  | InsufficientStock => json r = ErrorBody "Insufficient stock"
  | StorageError => status r = 500
  end.


(** The invariant of InventoryState: no quantity is negative. *)
Definition non_negative (st : store) : Prop :=
  Forall (fun r => 0 <= Storage.quantity r) (inventory st).

(** The rows of product [pid], as the SELECT of the route finds them. *)
Definition rows_of (pid : Z) (st : store) : list inventory_row :=
  filter (fun r => product_id r =? pid) (inventory st).

(** Referential integrity of the tables, which their keys enforce. *)
Definition integrity (st : store) : Prop :=
  NoDup (map p_id (products st)) /\
  NoDup (map c_id (categories st)) /\
  Forall (fun i => In (product_id i) (map p_id (products st))) (inventory st).

Definition ascending (l : list inventory_row) : Prop :=
  Sorted (fun a b => Storage.quantity a <= Storage.quantity b) l.

(** A call that cannot take a non-negative quantity below zero: an OUT,
    which the route checks, or a quantity that reads as a non-negative
    number. *)
Definition keeps_sign (c : call) : Prop :=
  is_string "OUT" (movement_type (payload c)) = true \/
  exists n, parseInt (quantity (payload c)) = Num n /\ 0 <= n.

Definition by_quantity (a b : low_stock_row) : Prop :=
  Storage.quantity (row a) <= Storage.quantity (row b).

(** Of two answers, one is a success and the other the rejection for
    insufficient stock. *)
Definition one_success_one_rejection (a : response * response) : Prop :=
  (status (fst a) = 200 /\ reports InsufficientStock (snd a)) \/
  (reports InsufficientStock (fst a) /\ status (snd a) = 200).

End Spec.

(** ** The scenarios of the specification *)

Module Scenario.

Definition widget : product :=
  {| p_id := 1; p_name := "widget"; p_sku := None; p_price := "9.99";
     p_category_id := None |}.

Definition stock (q level : Z) : inventory_row :=
  {| product_id := 1; Storage.quantity := q; min_stock_level := Some level;
     max_stock_level := Some 1000; location := None |}.

(** One product with quantity [q]. *)
Definition shop (q : Z) : store :=
  {| categories := []; products := [widget]; inventory := [stock q 10];
     stock_movements := []; users := [] |}.

Definition fresh (q : Z) : db :=
  {| committed := shop q; txn := Idle; sent := [] |}.

Definition request_body (q mt : value) : adjust_body :=
  {| quantity := q; movement_type := mt;
     reference_number := VUndefined; notes := VUndefined |}.

Definition number (z : Z) : value := VNumber (Num z).

(** Storage on which the INSERT of a movement fails. *)
Definition insert_fails : faults :=
  fun s =>
    match s with
    | INSERT_movement _ _ _ _ _ _ => Some "connection lost"
    | _ => None
    end.

Definition out6 : Concurrent.request :=
  {| Concurrent.rest := adjust None 1 (request_body (number 6) (VString "OUT"));
     Concurrent.client := Idle |}.

(** Two OUT requests for 6 on a product with quantity 10. *)
Definition two_outs : Concurrent.system :=
  {| Concurrent.shared := shop 10;
     Concurrent.first := out6;
     Concurrent.second := out6 |}.

Definition adjusted_10_4 : response :=
  {| status := 200;
     json := AdjustedBody "Inventory adjusted successfully" (Num 10) (Num 4) |}.

Definition insufficient : response :=
  {| status := 500; json := ErrorBody "Insufficient stock" |}.

(** The first request runs to its answer, then the second. *)
Definition one_after_the_other : list Concurrent.turn :=
  [Concurrent.First; Concurrent.First; Concurrent.First; Concurrent.First;
   Concurrent.First;
   Concurrent.Second; Concurrent.Second; Concurrent.Second].

(** Both requests read the row before either writes it. *)
Definition both_read_first : list Concurrent.turn :=
  [Concurrent.First; Concurrent.First; Concurrent.Second; Concurrent.Second;
   Concurrent.First; Concurrent.First; Concurrent.First;
   Concurrent.Second; Concurrent.Second; Concurrent.Second].

(** The ends the two requests can come to: the quantity is 4, and both
    succeeded with two movement rows, or one succeeded and the other was
    rejected with one movement row. *)
Definition two_outs_end (sys : Concurrent.system) : bool :=
  match map Storage.quantity (inventory (Concurrent.shared sys)),
        Concurrent.answers sys with
  | [q], Some (a1, a2) =>
      let movements := List.length (stock_movements (Concurrent.shared sys)) in
      (q =? 4) &&
      ((response_eqb a1 adjusted_10_4 && response_eqb a2 adjusted_10_4
        && (movements =? 2)%nat)
       || (response_eqb a1 adjusted_10_4 && response_eqb a2 insufficient
           && (movements =? 1)%nat)
       || (response_eqb a1 insufficient && response_eqb a2 adjusted_10_4
           && (movements =? 1)%nat))
  | _, _ => false
  end.

End Scenario.

(** The value of a decimal numeral, read digit by digit from [acc]. *)
Fixpoint uint_value (d : Decimal.uint) (acc : Z) : Z :=
  match d with
  | Decimal.Nil => acc
  | Decimal.D0 d' => uint_value d' (10 * acc)
  | Decimal.D1 d' => uint_value d' (10 * acc + 1)
  | Decimal.D2 d' => uint_value d' (10 * acc + 2)
  | Decimal.D3 d' => uint_value d' (10 * acc + 3)
  | Decimal.D4 d' => uint_value d' (10 * acc + 4)
  | Decimal.D5 d' => uint_value d' (10 * acc + 5)
  | Decimal.D6 d' => uint_value d' (10 * acc + 6)
  | Decimal.D7 d' => uint_value d' (10 * acc + 7)
  | Decimal.D8 d' => uint_value d' (10 * acc + 8)
  | Decimal.D9 d' => uint_value d' (10 * acc + 9)
  end.

(** ** The other routes *)

Module Catalog.

Inductive content :=
| Failure (error : string)
| Message (message : string).

Record answer := {
  code : Z;
  content_of : content
}.

(** The [catch] of these routes: status 500 with the fixed text. *)
Definition internal_server_error : answer :=
  {| code := 500; content_of := Failure "Internal server error" |}.

(** [DELETE /api/products/:id].  The statement goes through
    [pool.query], which gives it to a client of the pool: [d] is that
    client, with the transaction it was left in, if any.  On an idle
    client the statement is committed on its own; on a client that was
    released inside a transaction it joins that transaction.  The rows
    [RETURNING *] returns are the products of that id the client
    sees. *)
Definition delete_product (f : faults) (id : Z) (d : db) : answer * db :=
  let found := existsb (fun p => p_id p =? id) (products (visible d)) in
  let '(r, d') := exec f (DELETE_product id) d in
  match r with
  | Err _ => (internal_server_error, d')
  | Ok _ =>
      if found then
        ({| code := 200; content_of := Message "Product deleted successfully" |},
         d')
      else ({| code := 404; content_of := Failure "Product not found" |}, d')
  end.

Definition without_category (id : Z) (st : store) : store :=
  {| categories := filter (fun c => negb (c_id c =? id)) (categories st);
     products := products st;
     inventory := inventory st;
     stock_movements := stock_movements st;
     users := users st |}.

(** [DELETE /api/categories/:id] in [server.js], where
    [products.category_id] references [categories(id)] with no action on
    delete: the statement fails while a product is in the category. *)
Definition delete_category (fault : option string) (id : Z) (st : store)
  : answer * store :=
  match fault with
  | Some _ => (internal_server_error, st)
  | None =>
      match filter (fun c => c_id c =? id) (categories st) with
      | [] => ({| code := 404; content_of := Failure "Category not found" |}, st)
      | _ :: _ =>
          if existsb (in_category id) (products st)
          then (internal_server_error, st)
          else ({| code := 200;
                   content_of := Message "Category deleted successfully" |},
                without_category id st)
      end
  end.

(** The same route in the authenticated variant of the server, where
    the reference is declared ON DELETE SET NULL; [d] is the client of
    the pool that [pool.query] gives the statement to. *)
Definition delete_category_set_null (f : faults) (id : Z) (d : db)
  : answer * db :=
  let found := existsb (fun c => c_id c =? id) (categories (visible d)) in
  let '(r, d') := exec f (DELETE_category id) d in
  match r with
  | Err _ => (internal_server_error, d')
  | Ok _ =>
      if found then
        ({| code := 200; content_of := Message "Category deleted successfully" |},
         d')
      else ({| code := 404; content_of := Failure "Category not found" |}, d')
  end.

(** [low_stock_products] of [GET /api/dashboard/stats]:
    the count of the inventory rows [WHERE i.quantity <=
    i.min_stock_level] comes back as the text of a bigint, which
    [parseInt] reads. *)
Definition count_text (n : nat) : string :=
  decimal_numeral (Z.of_nat n).

Definition low_stock_products (st : store) : number :=
  parseInt (VString (count_text (List.length (filter is_low (inventory st))))).

(** [total_products] and [total_categories] of the same answer. *)
Definition total_products (st : store) : number :=
  parseInt (VString (count_text (List.length (products st)))).

Definition total_categories (st : store) : number :=
  parseInt (VString (count_text (List.length (categories st)))).

(** Every product that names a category names one that exists. *)
Definition category_references (st : store) : Prop :=
  Forall (fun p => match p_category_id p with
                   | Some c => In c (map c_id (categories st))
                   | None => True
                   end) (products st).

(** Every movement row belongs to a product that exists. *)
Definition movement_references (st : store) : Prop :=
  Forall (fun m => In (m_product_id m) (map p_id (products st)))
         (stock_movements st).

End Catalog.

(** *** Query texts built from the request *)

Module Queries.

Record sql := {
  text : string;
  params : list value
}.

(** [text + n] for a count [n] of parameters. *)
Definition placeholder (n : nat) : string :=
  String "$" (number_to_string (Num (Z.of_nat n))).

(** [GET /api/stock-movements]: [select] is the SELECT ... FROM ... JOIN
    text of the variant; [limit] defaults to 50 when the query string
    has none. *)
Definition stock_movements_query (select : string) (product_id limit : value)
  : sql :=
  let limit := match limit with VUndefined => VNumber (Num 50) | _ => limit end in
  let '(query, params) :=
    if truthy product_id
    then ((select ++ " WHERE sm.product_id = $1")%string, [product_id])
    else (select, []) in
  {| text := (query ++ " ORDER BY sm.created_at DESC LIMIT "
              ++ placeholder (List.length params + 1))%string;
     params := params ++ [limit] |}.

(** [GET /api/products] of the authenticated variant, with its optional
    filters. *)
Definition products_query (select : string) (category_id search : value) : sql :=
  let '(query, params) :=
    if truthy category_id || truthy search then
      let '(query, params) :=
        if truthy category_id
        then ((select ++ " WHERE" ++ " p.category_id = $1")%string, [category_id])
        else ((select ++ " WHERE")%string, []) in
      if truthy search then
        ((query ++ (match params with [] => EmptyString | _ => " AND" end)
                ++ " p.name ILIKE " ++ placeholder (List.length params + 1))%string,
         params ++ [VString ("%" ++ to_string search ++ "%")%string])
      else (query, params)
    else (select, []) in
  {| text := (query ++ " ORDER BY p.name")%string; params := params |}.

(** The numbers of the placeholders [$n] of a text, in order. *)
Fixpoint placeholders (s : string) : list Z :=
  match s with
  | EmptyString => []
  | String c s' =>
      if Ascii.eqb c "$" then
        match read_digits 10 s' None with
        | Some n => n :: placeholders s'
        | None => placeholders s'
        end
      else placeholders s'
  end.

Fixpoint no_dollar (s : string) : bool :=
  match s with
  | EmptyString => true
  | String c s' => negb (Ascii.eqb c "$") && no_dollar s'
  end.

(** The numbers 1 to [n]. *)
Definition one_to (n : nat) : list Z := map Z.of_nat (seq 1 n).

End Queries.

(** *** The token check of the authenticated variant *)

Module Auth.

(** [s.split(sep)] for a one-character separator. *)
Fixpoint split (sep : ascii) (s : string) : list string :=
  match s with
  | EmptyString => [EmptyString]
  | String c s' =>
      if Ascii.eqb c sep then EmptyString :: split sep s'
      else match split sep s' with
           | word :: words => String c word :: words
           | [] => [String c EmptyString]
           end
  end.

(** Does [s] hold no character [c]? *)
Fixpoint without (c : ascii) (s : string) : bool :=
  match s with
  | EmptyString => true
  | String x s' => negb (Ascii.eqb x c) && without c s'
  end.

(** The payload the tokens are signed with at login. *)
Record user := {
  id : Z;
  role : string
}.

(** [authHeader && authHeader.split(' ')[1]] *)
Definition token_of (authHeader : option string) : option string :=
  match authHeader with
  | None => None
  | Some EmptyString => Some EmptyString
  | Some header => nth_error (split " " header) 1
  end.

Definition falsy_token (token : option string) : bool :=
  match token with
  | None => true
  | Some t => String.eqb t EmptyString
  end.

(** [authenticateToken]: the answer it gives itself, or the user it
    hands to the route.  [verify] is [jwt.verify] with the secret of the
    server. *)
Definition authenticateToken (verify : string -> option user)
    (authHeader : option string) : response + user :=
  let token := token_of authHeader in
  if falsy_token token then
    inl {| status := 401; json := ErrorBody "Access token required" |}
  else
    match verify (match token with Some t => t | None => EmptyString end) with
    | None => inl {| status := 403; json := ErrorBody "Invalid token" |}
    | Some u => inr u
    end.

(** [app.put('/api/inventory/:productId/adjust', authenticateToken, ...)] *)
Definition adjust_authenticated (verify : string -> option user)
    (authHeader : option string) (productId : Z) (b : adjust_body)
  : prog response :=
  match authenticateToken verify authHeader with
  | inl refusal => Ret refusal
  | inr u => adjust (Some (id u)) productId b
  end.

(** [app.delete('/api/products/:id', authenticateToken, ...)]; the
    refusals of the token check are given in the answers of the
    route. *)
Definition delete_product_authenticated (verify : string -> option user)
    (authHeader : option string) (f : faults) (productId : Z)
    (d : db) : Catalog.answer * db :=
  match authenticateToken verify authHeader with
  | inl refusal =>
      ({| Catalog.code := status refusal;
          Catalog.content_of :=
            match json refusal with
            | ErrorBody e => Catalog.Failure e
            | AdjustedBody m _ _ => Catalog.Message m
            end |}, d)
  | inr _ => Catalog.delete_product f productId d
  end.

End Auth.

(** *** Creating a product *)

Module Creation.

Record product_body := {
  name : value;
  description : value;
  category_id : value;
  price : value;
  cost_price : value;
  sku : value;
  barcode : value;
  image_url : value;
  initial_quantity : value;
  min_stock_level : value;
  max_stock_level : value;
  location : value
}.

(** A default of the destructuring: it replaces a field that is absent
    and nothing else. *)
Definition default_to (d : value) (v : value) : value :=
  match v with
  | VUndefined => d
  | _ => v
  end.

(** The statements of the route.  The columns of [products] are the
    business of the storage: the INSERT carries the values as sent. *)
Inductive statement :=
| BEGIN
| COMMIT
| ROLLBACK
| INSERT_product (values : list value)
| INSERT_inventory (product_id : Z)
    (quantity min_stock_level max_stock_level location : value)
| INSERT_movement (product_id : Z) (user_id : option Z) (quantity : value).

Inductive change :=
| NewProduct (p : product)
| NewInventory (r : inventory_row)
| NewMovement (m : movement).

Definition apply_change (st : store) (c : change) : store :=
  match c with
  | NewProduct p =>
      {| categories := categories st;
         products := products st ++ [p];
         inventory := inventory st;
         stock_movements := stock_movements st;
         users := users st |}
  | NewInventory r =>
      {| categories := categories st;
         products := products st;
         inventory := inventory st ++ [r];
         stock_movements := stock_movements st;
         users := users st |}
  | NewMovement m =>
      {| categories := categories st;
         products := products st;
         inventory := inventory st;
         stock_movements := stock_movements st ++ [m];
         users := users st |}
  end.

Definition apply_changes (st : store) (cs : list change) : store :=
  fold_left apply_change cs st.

Inductive result :=
| Done
| Returning (p : product)
| Failed (message : string).

Inductive session :=
| Quiet
| Running (cs : list change)
| Broken.

Record connection := {
  stored : store;
  session_of : session;
  log : list statement
}.

Definition unsaved (c : connection) : list change :=
  match session_of c with
  | Running cs => cs
  | _ => []
  end.

(** What the storage does that the route does not decide: [inserted]
    is its answer to the INSERT into [products] (the row it returns,
    with the id of the sequence, or the error of a column or a key),
    [fails] the statements that fail for other reasons. *)
Record storage := {
  inserted : string + product;
  fails : statement -> option string
}.

(** [INSERT INTO inventory (product_id, quantity, min_stock_level,
    max_stock_level, location)]: four INTEGER columns, the quantity
    NOT NULL, and a VARCHAR(255).  [product.id] is bound like every
    other parameter. *)
Definition insert_inventory (pid : Z) (q mn mx loc : value)
  : string + inventory_row :=
  match required int4_in (bind (VNumber (Num pid))),
        required int4_in (bind q),
        nullable int4_in (bind mn),
        nullable int4_in (bind mx),
        nullable (varchar 255) (bind loc) with
  | Some pid', Some q', Some mn', Some mx', Some loc' =>
      inr {| Storage.product_id := pid'; Storage.quantity := q';
             Storage.min_stock_level := mn'; Storage.max_stock_level := mx';
             Storage.location := loc' |}
  | None, _, _, _, _ => inl "invalid input for type integer"
  | _, None, _, _, _ => inl "invalid input for type integer"
  | _, _, None, _, _ => inl "invalid input for type integer"
  | _, _, _, None, _ => inl "invalid input for type integer"
  | _, _, _, _, None => inl "value too long for type character varying(255)"
  end.

(** The outcome of a statement that writes, on the rows the client
    sees. *)
Definition outcome (sto : storage) (s : statement) (visible : store)
  : string + (result * list change) :=
  match s with
  | INSERT_product _ =>
      match inserted sto with
      | inr p => inr (Returning p, [NewProduct p])
      | inl message => inl message
      end
  | INSERT_inventory pid q mn mx loc =>
      match insert_inventory pid q mn mx loc with
      | inr r => inr (Done, [NewInventory r])
      | inl message => inl message
      end
  | INSERT_movement pid uid q =>
      match Storage.insert_movement pid uid (VString "IN") q VUndefined
              (VString "Initial stock") visible with
      | Written (AddMovement m) => inr (Done, [NewMovement m])
      | Refused message => inl message
      | _ => inr (Done, [])
      end
  | _ => inr (Done, [])
  end.

Definition broken (t : session) : session :=
  match t with
  | Quiet => Quiet
  | _ => Broken
  end.

(** One statement on the client, with the transaction rules of
    [Storage.exec]. *)
Definition execute (sto : storage) (s : statement) (c : connection)
  : result * connection :=
  let l := s :: log c in
  let failed message :=
    (Failed message,
     {| stored := stored c; session_of := broken (session_of c); log := l |}) in
  let done r st t := (r, {| stored := st; session_of := t; log := l |}) in
  match fails sto s with
  | Some message => failed message
  | None =>
      match s, session_of c with
      | ROLLBACK, _ => done Done (stored c) Quiet
      | COMMIT, Broken => done Done (stored c) Quiet
      | _, Broken => failed "current transaction is aborted"
      | COMMIT, _ => done Done (apply_changes (stored c) (unsaved c)) Quiet
      | BEGIN, _ => done Done (stored c) (Running (unsaved c))
      | _, _ =>
          match outcome sto s (apply_changes (stored c) (unsaved c)) with
          | inl message => failed message
          | inr (r, cs) =>
              match session_of c with
              | Running old => done r (stored c) (Running (old ++ cs))
              | _ => done r (apply_changes (stored c) cs) Quiet
              end
          end
      end
  end.

Inductive routine :=
| Ret (a : Z * (string + product))
| Query (s : statement) (k : result -> routine).

Fixpoint perform (sto : storage) (p : routine) (c : connection)
  : (Z * (string + product)) * connection :=
  match p with
  | Ret a => (a, c)
  | Query s k => let '(r, c') := execute sto s c in perform sto (k r) c'
  end.

(** The two [catch] blocks: ROLLBACK, then status 500 with the fixed
    text, whatever the error was. *)
Definition rollback_and_fail : routine :=
  Query ROLLBACK (fun _ => Ret (500, inl "Internal server error")).

(** [await client.query(...)] inside the inner [try]. *)
Definition awaiting (s : statement) (k : result -> routine) : routine :=
  Query s (fun r =>
    match r with
    | Failed _ => rollback_and_fail
    | _ => k r
    end).

(** ToNumber, with [StringToNumber] as the reading of a text. *)
Definition to_number (StringToNumber : string -> number) (v : value) : number :=
  match v with
  | VUndefined => NaN
  | VNull => Num 0
  | VBool true => Num 1
  | VBool false => Num 0
  | VNumber n => n
  | VString s => StringToNumber s
  end.

(** [POST /api/products].  [user_id] is [None] in [server.js], which
    sends seven values for the product; the authenticated variant adds
    [image_url] and [req.user.id]. *)
Definition create_product (StringToNumber : string -> number)
    (authenticated : bool) (user_id : option Z) (b : product_body) : routine :=
  let initial_quantity := default_to (VNumber (Num 0)) (initial_quantity b) in
  let min_stock_level := default_to (VNumber (Num 0)) (min_stock_level b) in
  let max_stock_level := default_to (VNumber (Num 1000)) (max_stock_level b) in
  if negb (truthy (name b)) || negb (truthy (price b)) then
    Ret (400, inl "Product name and price are required")
  else
    awaiting BEGIN (fun _ =>
    awaiting (INSERT_product
             ([name b; description b; category_id b; price b; cost_price b;
               sku b; barcode b]
              ++ (if authenticated then [image_url b] else [])))
      (fun r =>
         match r with
         | Returning product =>
             awaiting (INSERT_inventory (p_id product) initial_quantity
                      min_stock_level max_stock_level (location b))
               (fun _ =>
                  let finish :=
                    awaiting COMMIT (fun _ => Ret (201, inr product)) in
                  if lt (Num 0) (to_number StringToNumber initial_quantity)
                  then awaiting (INSERT_movement (p_id product) user_id
                                initial_quantity) (fun _ => finish)
                  else finish)
         | _ => rollback_and_fail
         end)).

(** The reading of a text that the INTEGER column accepts is the
    number the column stores. *)
Definition reads_integers (StringToNumber : string -> number) : Prop :=
  forall text z, int4_in text = Some z -> StringToNumber text = Num z.

(** A reading of texts that is right on integers. *)
Definition integer_reading (text : string) : number :=
  match int4_in text with
  | Some z => Num z
  | None => NaN
  end.

End Creation.

(** *** Further vocabulary for the properties *)

Module Frame.


Definition recognized_kind (kind : string) : Prop :=
  kind = "IN" \/ kind = "OUT" \/ kind = "ADJUSTMENT".

End Frame.

(** *** Further sample data *)

Module Samples.

Definition tools : category := {| c_id := 7; c_name := "tools" |}.

Definition hammer : product :=
  {| p_id := 2; p_name := "hammer"; p_sku := Some "H-1"; p_price := "15.00";
     p_category_id := Some 7 |}.

Definition hammer_stock : inventory_row :=
  {| product_id := 2; Storage.quantity := 3; min_stock_level := Some 5;
     max_stock_level := Some 100; location := Some "A1" |}.

Definition hammer_receipt : movement :=
  {| m_product_id := 2; m_user_id := None; m_movement_type := "IN";
     m_quantity := 3; m_reference_number := None;
     m_notes := Some "Initial stock" |}.

(** Two products, one in a category, both low on stock. *)
Definition warehouse : store :=
  {| categories := [tools];
     products := [Scenario.widget; hammer];
     inventory := [Scenario.stock 5 10; hammer_stock];
     stock_movements := [hammer_receipt];
     users := [9] |}.

(** A verifier that accepts one token. *)
Definition verify_one (token : string) : option Auth.user :=
  if String.eqb token "good" then Some {| Auth.id := 9; Auth.role := "user" |}
  else None.

Definition nail : product :=
  {| p_id := 3; p_name := "nail"; p_sku := None; p_price := "2.00";
     p_category_id := None |}.

(** Storage that accepts the nail and never fails. *)
Definition obliging : Creation.storage :=
  {| Creation.inserted := inr nail; Creation.fails := fun _ => None |}.

Definition nail_body (initial_quantity : value) : Creation.product_body :=
  {| Creation.name := VString "nail"; Creation.description := VUndefined;
     Creation.category_id := VUndefined; Creation.price := VNumber (Num 2);
     Creation.cost_price := VUndefined; Creation.sku := VUndefined;
     Creation.barcode := VUndefined; Creation.image_url := VUndefined;
     Creation.initial_quantity := initial_quantity;
     Creation.min_stock_level := VUndefined;
     Creation.max_stock_level := VUndefined;
     Creation.location := VUndefined |}.

Definition quiet (st : store) : Creation.connection :=
  {| Creation.stored := st; Creation.session_of := Creation.Quiet;
     Creation.log := [] |}.

(** The SELECT text of the stock-movements route of [server.js]. *)
Definition movements_select : string :=
  "
      SELECT sm.*, p.name as product_name, p.sku
      FROM stock_movements sm
      JOIN products p ON sm.product_id = p.id
    ".

End Samples.

(** ** Properties *)

Example parseInt_truncates : parseInt (VString "6.9") = Num 6.
Proof. reflexivity. Qed.

Example parseInt_unreadable : parseInt (VString "abc") = NaN.
Proof. reflexivity. Qed.

Example parseInt_prefix : parseInt (VString "  -0x1F rest") = Num (-31).
Proof. reflexivity. Qed.

Example int4_in_fraction : int4_in "6.9" = None.
Proof. reflexivity. Qed.

Example int4_in_spaces : int4_in " -42 " = Some (-42).
Proof. reflexivity. Qed.

Example int4_in_too_large : int4_in "2147483648" = None.
Proof. reflexivity. Qed.

Example zero_is_falsy : truthy (VNumber (Num 0)) = false /\ truthy (VString "0") = true.
Proof. split; reflexivity. Qed.

Module Numerals.

Ltac each_char c := destruct c as [[] [] [] [] [] [] [] []].

Lemma of_uint_acc_value d : forall acc,
  Z.pos (Pos.of_uint_acc d acc) = uint_value d (Z.pos acc).
Proof.
  induction d; intros acc; cbn [Pos.of_uint_acc uint_value];
    try reflexivity; rewrite IHd; f_equal; lia.
Qed.

Lemma of_uint_value d : Z.of_N (Pos.of_uint d) = uint_value d 0.
Proof.
  induction d; cbn [Pos.of_uint uint_value]; try reflexivity;
    try (rewrite IHd; reflexivity);
    cbn [Z.of_N]; rewrite of_uint_acc_value; reflexivity.
Qed.

Lemma read_digits_uint d : forall acc,
  read_digits 10 (NilEmpty.string_of_uint d) acc =
  match d with
  | Decimal.Nil => acc
  | _ => Some (uint_value d (so_far acc))
  end.
Proof.
  induction d; intros acc; [reflexivity | ..];
    cbn [NilEmpty.string_of_uint read_digits];
    (change (radix_digit 10 _) with (Some 0) ||
     change (radix_digit 10 _) with (Some 1) ||
     change (radix_digit 10 _) with (Some 2) ||
     change (radix_digit 10 _) with (Some 3) ||
     change (radix_digit 10 _) with (Some 4) ||
     change (radix_digit 10 _) with (Some 5) ||
     change (radix_digit 10 _) with (Some 6) ||
     change (radix_digit 10 _) with (Some 7) ||
     change (radix_digit 10 _) with (Some 8) ||
     change (radix_digit 10 _) with (Some 9));
    cbv iota beta; rewrite IHd; cbn [uint_value so_far].
    all: destruct d; try reflexivity.
    all: cbn [uint_value]; rewrite ?Z.add_0_r; reflexivity.
Qed.

Lemma read_integer_uint lead d : forall acc,
  read_integer 10 lead (NilEmpty.string_of_uint d) acc =
  Some (match d with
        | Decimal.Nil => acc
        | _ => Some (uint_value d (so_far acc))
        end, EmptyString).
Proof.
  induction d; intros acc; [reflexivity | ..];
    cbn [NilEmpty.string_of_uint read_integer];
    first [ rewrite (eq_refl : radix_digit 10 "0" = Some 0)
          | rewrite (eq_refl : radix_digit 10 "1" = Some 1)
          | rewrite (eq_refl : radix_digit 10 "2" = Some 2)
          | rewrite (eq_refl : radix_digit 10 "3" = Some 3)
          | rewrite (eq_refl : radix_digit 10 "4" = Some 4)
          | rewrite (eq_refl : radix_digit 10 "5" = Some 5)
          | rewrite (eq_refl : radix_digit 10 "6" = Some 6)
          | rewrite (eq_refl : radix_digit 10 "7" = Some 7)
          | rewrite (eq_refl : radix_digit 10 "8" = Some 8)
          | rewrite (eq_refl : radix_digit 10 "9" = Some 9) ];
    rewrite IHd; cbn [uint_value so_far].
    all: destruct d; try reflexivity.
    all: cbn [uint_value]; rewrite ?Z.add_0_r; reflexivity.
Qed.

(** The numeral of a positive number starts with a digit: nothing is
    trimmed from it, it has no sign and no radix prefix. *)
Lemma numeral_shape p :
  let s := NilEmpty.string_of_uint (Pos.to_uint p) in
  NilZero.string_of_uint (Pos.to_uint p) = s /\
  trim_start s = s /\ read_sign s = (1, s) /\ read_radix s = (10, s) /\
  skip_spaces s = s /\ leading_sign s = (1, s) /\
  integer_radix s = (10, false, s) /\
  Pos.to_uint p <> Decimal.Nil.
Proof.
  pose proof (DecimalPos.Unsigned.to_uint_nonnil p) as Hnil.
  cbv zeta. destruct (Pos.to_uint p) as [|d|d|d|d|d|d|d|d|d|d]; [congruence | ..].
  all: repeat split; try reflexivity; try congruence.
  all: destruct d; reflexivity.
Qed.

Lemma pos_value p : uint_value (Pos.to_uint p) 0 = Z.pos p.
Proof.
  rewrite <- of_uint_value, DecimalPos.Unsigned.of_to. reflexivity.
Qed.

(** [parseInt] reads a numeral as its number. *)
Lemma parseInt_decimal z : parseInt_string (decimal_numeral z) = Num z.
Proof.
  unfold decimal_numeral, parseInt_string.
  destruct z as [|p|p]; [reflexivity | ..];
    cbn [Z.to_int NilZero.string_of_int];
    destruct (numeral_shape p) as (-> & Ht & Hs & Hr & _ & _ & _ & Hnil).
  - rewrite Ht, Hs, Hr, read_digits_uint.
    destruct (Pos.to_uint p) eqn:E; try congruence;
      rewrite <- E, pos_value; f_equal; lia.
  - cbn [trim_start]. change (is_white "-") with false. cbv iota.
    cbn [read_sign]. rewrite Hr, read_digits_uint.
    destruct (Pos.to_uint p) eqn:E; try congruence;
      rewrite <- E, pos_value; f_equal; lia.
Qed.

(** An INTEGER column reads a numeral as its number, when it fits. *)
Lemma int4_in_decimal z :
  int4_in (decimal_numeral z) = if in_int4 z then Some z else None.
Proof.
  unfold decimal_numeral, int4_in.
  destruct z as [|p|p]; [reflexivity | ..];
    cbn [Z.to_int NilZero.string_of_int];
    destruct (numeral_shape p) as (-> & _ & _ & _ & Hk & Hsg & Hx & Hnil).
  - rewrite Hk, Hsg, Hx, read_integer_uint.
    destruct (Pos.to_uint p) eqn:E'; try congruence;
      rewrite <- E', pos_value; cbn [so_far skip_spaces];
      replace (1 * Z.pos p) with (Z.pos p) by lia; reflexivity.
  - cbn [skip_spaces]. change (is_space "-") with false. cbv iota.
    cbn [leading_sign]. rewrite Hx, read_integer_uint.
    destruct (Pos.to_uint p) eqn:E'; try congruence;
      rewrite <- E', pos_value; cbn [so_far skip_spaces];
      replace (-1 * Z.pos p) with (Z.neg p) by lia; reflexivity.
Qed.

Lemma decimal_negative v :
  0 < v -> String "-" (decimal_numeral v) = decimal_numeral (- v).
Proof.
  destruct v as [|p|p]; try lia. intros _. reflexivity.
Qed.

(** Below 2^53 a number prints as its numeral. *)
Lemma number_to_string_small z :
  Z.abs z < 2 ^ 53 -> number_to_string (Num z) = decimal_numeral z.
Proof.
  intros Hz. unfold number_to_string, magnitude_to_string.
  destruct (Z.ltb_spec z 0) as [Hneg | Hpos].
  - destruct (Z.ltb_spec (- z) (2 ^ 53)) as [_ | H]; [|lia].
    rewrite decimal_negative by lia. f_equal. lia.
  - destruct (Z.ltb_spec z (2 ^ 53)) as [_ | H]; [reflexivity | lia].
Qed.

Lemma parseInt_number z :
  Z.abs z < 2 ^ 53 -> parseInt (VNumber (Num z)) = Num z.
Proof.
  intros Hz. unfold parseInt, to_string.
  rewrite (number_to_string_small z Hz). apply parseInt_decimal.
Qed.

Lemma in_int4_small z : in_int4 z = true -> Z.abs z < 2 ^ 53.
Proof.
  unfold in_int4, int4_min, int4_max. intros H.
  apply andb_true_iff in H. destruct H as [H1 H2].
  apply Z.leb_le in H1, H2.
  assert (2 ^ 53 = 9007199254740992) by reflexivity. lia.
Qed.

(** What rounds to a Number of 2^53 or more is itself that large. *)
Lemma rounds_large d v :
  2 ^ 53 <= d -> rounds_to d v = true -> 2 ^ 53 <= v.
Proof.
  intros Hd. unfold rounds_to, nearest_double.
  destruct (Z.ltb_spec (Z.log2 v) 53) as [_ | Hlog].
  - intros H. apply Z.eqb_eq in H. lia.
  - intros _.
    assert (Hpos : 0 < v).
    { destruct (Z.ltb_spec 0 v) as [H | H]; [exact H|].
      rewrite (Z.log2_nonpos v H) in Hlog. lia. }
    pose proof (Z.log2_spec v Hpos) as [Hlo _].
    assert (2 ^ 53 <= 2 ^ Z.log2 v) by (apply Z.pow_le_mono_r; lia).
    lia.
Qed.

Lemma nearest_double_large a d :
  2 ^ 53 <= a -> nearest_double a = Some d -> 2 ^ 53 <= d.
Proof.
  intros Ha. unfold nearest_double.
  assert (Hpos : 0 < a) by (assert (0 < 2 ^ 53) by reflexivity; lia).
  assert (Hlog : 53 <= Z.log2 a).
  { change 53 with (Z.log2 (2 ^ 53)). apply Z.log2_le_mono. exact Ha. }
  destruct (Z.ltb_spec (Z.log2 a) 53) as [H | _]; [lia|].
  cbv zeta.
  set (ulp := 2 ^ (Z.log2 a - 52)).
  assert (Hulp : 0 < ulp) by (apply Z.pow_pos_nonneg; lia).
  assert (Hq : 2 ^ 52 <= a / ulp).
  { apply Z.div_le_lower_bound; [exact Hulp|].
    unfold ulp. rewrite Z.mul_comm, <- Z.pow_add_r by lia.
    replace (52 + (Z.log2 a - 52)) with (Z.log2 a) by lia.
    apply (Z.log2_spec a Hpos). }
  assert (Hm : forall m, a / ulp <= m -> 2 ^ 53 <= m * ulp).
  { intros m Hm.
    assert (2 ^ 52 * ulp <= m * ulp) by (apply Z.mul_le_mono_nonneg_r; lia).
    assert (2 ^ 53 <= 2 ^ 52 * ulp).
    { unfold ulp. rewrite <- Z.pow_add_r by lia.
      apply Z.pow_le_mono_r; lia. }
    lia. }
  destruct ((ulp / 2 <? a mod ulp) || (a mod ulp =? ulp / 2) && Z.odd (a / ulp));
    match goal with
    | |- context [2 ^ 1024 <=? ?x] => destruct (2 ^ 1024 <=? x); [discriminate|]
    end;
    intros H; inversion H; apply Hm; lia.
Qed.

Lemma shortest_large fuel d : forall k n,
  2 ^ 53 <= d -> 2 ^ 53 <= shortest fuel k n d.
Proof.
  induction fuel as [|fuel IH]; intros k n Hd; cbn [shortest]; [exact Hd|].
  destruct (n <=? k); [exact Hd|]. cbv zeta.
  destruct (rounds_to d (d / 10 ^ (n - k) * 10 ^ (n - k))) eqn:Elo,
           (rounds_to d (d / 10 ^ (n - k) * 10 ^ (n - k) + 10 ^ (n - k))) eqn:Ehi.
  - destruct (_ <? _); [exact (rounds_large _ _ Hd Elo)|].
    destruct (_ <? _); [exact (rounds_large _ _ Hd Ehi)|].
    destruct (Z.even _);
      [exact (rounds_large _ _ Hd Elo) | exact (rounds_large _ _ Hd Ehi)].
  - exact (rounds_large _ _ Hd Elo).
  - exact (rounds_large _ _ Hd Ehi).
  - apply IH. exact Hd.
Qed.

Lemma in_int4_large v : 2 ^ 53 <= v -> in_int4 v = false /\ in_int4 (- v) = false.
Proof.
  intros Hv. assert (2 ^ 53 = 9007199254740992) by reflexivity.
  unfold in_int4, int4_min, int4_max.
  split; apply andb_false_iff; [right | left]; apply Z.leb_gt; lia.
Qed.

(** A text whose second character is a point or an [e] is no
    integer, with or without a minus sign in front. *)
Lemma int4_in_point c rest :
  int4_in (String c (String "." rest)) = None /\
  int4_in (String "-" (String c (String "." rest))) = None.
Proof. each_char c; split; reflexivity. Qed.

Lemma int4_in_exponent c rest :
  int4_in (String c (String "e" rest)) = None /\
  int4_in (String "-" (String c (String "e" rest))) = None.
Proof. each_char c; split; reflexivity. Qed.

(** No INTEGER column accepts the text of a number of 2^53 or more. *)
Lemma int4_in_large v :
  2 ^ 53 <= v ->
  int4_in (large_to_string v) = None /\
  int4_in (String "-" (large_to_string v)) = None.
Proof.
  intros Hv. destruct (in_int4_large v Hv) as [Hp Hn].
  assert (Hd : int4_in (decimal_numeral v) = None /\
               int4_in (String "-" (decimal_numeral v)) = None).
  { split.
    - rewrite int4_in_decimal, Hp. reflexivity.
    - rewrite decimal_negative, int4_in_decimal, Hn; [reflexivity|].
      assert (0 < 2 ^ 53) by reflexivity. lia. }
  unfold large_to_string. cbv zeta.
  destruct (_ <=? 21); [exact Hd|].
  destruct (drop_zeros (decimal_numeral v)) as [|c [|c' rest]]; [exact Hd | ..].
  - apply int4_in_exponent.
  - apply int4_in_point.
Qed.

Lemma int4_in_number z :
  int4_in (number_to_string (Num z)) = if in_int4 z then Some z else None.
Proof.
  destruct (Z.ltb_spec (Z.abs z) (2 ^ 53)) as [Hs | Hl].
  - rewrite (number_to_string_small z Hs). apply int4_in_decimal.
  - unfold number_to_string, magnitude_to_string.
    destruct (Z.ltb_spec z 0) as [Hneg | Hpos].
    + destruct (in_int4_large (- z) ltac:(lia)) as [_ Hr].
      replace (- - z) with z in Hr by lia. rewrite Hr.
      destruct (Z.ltb_spec (- z) (2 ^ 53)) as [H | _]; [lia|].
      destruct (nearest_double (- z)) as [d|] eqn:Ed; [|reflexivity].
      apply int4_in_large, shortest_large.
      apply (nearest_double_large (- z)); [lia | exact Ed].
    + destruct (in_int4_large z ltac:(lia)) as [Hr _]. rewrite Hr.
      destruct (Z.ltb_spec z (2 ^ 53)) as [H | _]; [lia|].
      destruct (nearest_double z) as [d|] eqn:Ed; [|reflexivity].
      apply int4_in_large, shortest_large.
      apply (nearest_double_large z); [lia | exact Ed].
Qed.

End Numerals.

Module Facts.
Import Numerals Spec.

Ltac split_matches H :=
  repeat match type of H with
         | context [match ?x with _ => _ end] => destruct x
         end.

Lemma is_string_eq text v : is_string text v = true -> v = VString text.
Proof.
  destruct v; cbn [is_string]; try discriminate.
  intros H. apply String.eqb_eq in H. congruence.
Qed.

Lemma visible_idle c l : visible {| committed := c; txn := Idle; sent := l |} = c.
Proof. reflexivity. Qed.

(** The SELECT of the route finds the rows of a product that has
    some. *)
Lemma select_rows pid st row others :
  rows_of pid st = row :: others ->
  select_inventory pid st = Selected (row :: others).
Proof. unfold rows_of, select_inventory. intros ->. reflexivity. Qed.

Lemma select_no_rows pid st :
  rows_of pid st = [] ->
  select_inventory pid st =
  if in_int4 pid then Selected []
  else Refused "value out of range for type integer".
Proof. unfold rows_of, select_inventory. intros ->. reflexivity. Qed.

(** The INSERT looks at the table of users and at nothing else. *)
Lemma insert_movement_users pid uid mt q ref notes st st' :
  users st' = users st ->
  insert_movement pid uid mt q ref notes st' =
  insert_movement pid uid mt q ref notes st.
Proof.
  intros H. unfold insert_movement, references_user. rewrite H. reflexivity.
Qed.

(** The request that fails the presence check is answered at once. *)
Lemma adjust_presence f uid pid b d :
  truthy (quantity b) && truthy (movement_type b) = false ->
  run f (adjust uid pid b) d =
  ({| status := 400; json := ErrorBody "Quantity and movement type are required" |}, d).
Proof.
  intros H. unfold adjust.
  replace (negb (truthy (quantity b)) || negb (truthy (movement_type b))) with true.
  - reflexivity.
  - destruct (truthy (quantity b)), (truthy (movement_type b)); cbn in *; congruence.
Qed.

(** A request that passes the presence check on a product with an
    inventory row, on reliable storage: the switch decides, then the
    two columns. *)
Lemma adjust_switch uid pid b c l row others :
  truthy (quantity b) = true -> truthy (movement_type b) = true ->
  rows_of pid c = row :: others ->
  run reliable (adjust uid pid b) {| committed := c; txn := Idle; sent := l |} =
  match switch_movement_type (movement_type b) (quantity b)
          (Num (Storage.quantity row)) with
  | inl message =>
      (internal_error message,
       {| committed := c; txn := Idle;
          sent := ROLLBACK :: SELECT_inventory pid :: BEGIN :: l |})
  | inr newQuantity =>
      let log := UPDATE_inventory newQuantity pid :: SELECT_inventory pid :: BEGIN :: l in
      let insert := INSERT_movement pid uid (movement_type b) (quantity b)
                      (reference_number b) (notes b) in
      match update_inventory newQuantity pid,
            insert_movement pid uid (movement_type b) (quantity b)
                            (reference_number b) (notes b) c with
      | Written w1, Written w2 =>
          ({| status := 200;
              json := AdjustedBody "Inventory adjusted successfully"
                        (Num (Storage.quantity row)) newQuantity |},
           {| committed := apply_writes c [w1; w2]; txn := Idle;
              sent := COMMIT :: insert :: log |})
      | Written w1, Refused message =>
          (internal_error message,
           {| committed := c; txn := Idle; sent := ROLLBACK :: insert :: log |})
      | Refused message, _ =>
          (internal_error message,
           {| committed := c; txn := Idle; sent := ROLLBACK :: log |})
      | _, _ => (internal_error EmptyString, {| committed := c; txn := Idle; sent := l |})
      end
  end.
Proof.
  intros Hq Hm Hrows. unfold adjust. rewrite Hq, Hm.
  cbn [negb orb run Server.await exec reliable txn pending committed sent
       effect_of visible apply_writes fold_left].
  rewrite (select_rows _ _ _ _ Hrows).
  destruct (switch_movement_type _ _ _) as [message | newQuantity];
    [reflexivity|].
  cbn [run Server.await exec reliable txn pending committed sent effect_of
       visible apply_writes fold_left].
  destruct (update_inventory newQuantity pid) as [|w1| |] eqn:Eu;
    try (unfold update_inventory in Eu; split_matches Eu; discriminate);
    [|reflexivity].
  cbn [run Server.await exec reliable txn pending committed sent effect_of
       visible apply_writes fold_left app].
  rewrite (insert_movement_users pid uid _ _ _ _ c (apply_write c w1))
    by (unfold update_inventory in Eu; split_matches Eu; try discriminate;
        inversion Eu; reflexivity).
  destruct (insert_movement _ _ _ _ _ _ _) eqn:Ei;
    try (unfold insert_movement in Ei; split_matches Ei; discriminate);
    reflexivity.
Qed.

End Facts.

Module Atomicity.
Import Facts Spec.

Lemma exec_faults f s d :
  exec f s d =
  match f s with
  | Some message =>
      (Err message,
       {| committed := committed d; txn := after_error (txn d); sent := s :: sent d |})
  | None => exec reliable s d
  end.
Proof. unfold exec, reliable. destruct (f s); reflexivity. Qed.

Lemma update_written q pid w :
  update_inventory q pid = Written w ->
  exists z, q = Num z /\ w = SetQuantity pid z /\ in_int4 z = true.
Proof.
  unfold update_inventory. destruct q as [|z]; [discriminate|].
  rewrite Numerals.int4_in_number. destruct (in_int4 z) eqn:E; [|discriminate].
  intros H; inversion H. exists z. repeat split. exact E.
Qed.

Lemma insert_written pid uid mt q ref notes st w :
  insert_movement pid uid mt q ref notes st = Written w ->
  exists m, w = AddMovement m /\ m_product_id m = pid /\ m_user_id m = uid /\
    required (varchar 50) (bind mt) = Some (m_movement_type m) /\
    required int4_in (bind q) = Some (m_quantity m) /\
    nullable (varchar 100) (bind ref) = Some (m_reference_number m) /\
    nullable text_in (bind notes) = Some (m_notes m) /\
    references_user uid st = true.
Proof.
  unfold insert_movement.
  destruct (required (varchar 50) (bind mt)), (required int4_in (bind q)),
    (nullable (varchar 100) (bind ref)), (nullable text_in (bind notes));
    try discriminate.
  destruct (references_user uid st); [|discriminate].
  intros H; inversion H. eexists; repeat split; reflexivity.
Qed.

Ltac case_step f :=
  match goal with
  | |- context [exec f ?s ?d] =>
      rewrite (exec_faults f s d); destruct (f s) eqn:?
  | |- context [match select_inventory ?p ?st with _ => _ end] =>
      let E := fresh "Es" in
      destruct (select_inventory p st) as [[|? ?]| | |] eqn:E;
      try (unfold select_inventory in E; split_matches E; discriminate)
  | |- context [match switch_movement_type ?a ?b ?c with _ => _ end] =>
      destruct (switch_movement_type a b c) eqn:?
  | |- context [match update_inventory ?q ?p with _ => _ end] =>
      let E := fresh "Eu" in
      destruct (update_inventory q p) eqn:E;
      try (unfold update_inventory in E; split_matches E; discriminate)
  | |- context [match insert_movement ?a ?b ?c ?d ?e ?g ?st with _ => _ end] =>
      let E := fresh "Ei" in
      destruct (insert_movement a b c d e g st) eqn:E;
      try (unfold insert_movement in E; split_matches E; discriminate)
  end;
  cbn [run Server.await rollback_and_throw exec reliable txn pending committed
       sent effect_of visible apply_writes fold_left app
       after_error fst snd].

Ltac prefix_of L l :=
  lazymatch L with
  | l => constr:(@nil stmt)
  | ?x :: ?L' => let p := prefix_of L' l in constr:(x :: p)
  end.

Lemma select_selected pid st rows :
  select_inventory pid st = Selected rows -> rows_of pid st = rows.
Proof.
  unfold select_inventory, rows_of.
  destruct (filter _ _); [destruct (in_int4 pid)|]; intros H; inversion H;
    reflexivity.
Qed.

(** Every way a call can go, on storage that may fail at any
    statement: the statements it sent, and either an answer other than
    200 with the committed tables as they were, or the answer 200 with
    every statement successful and both writes committed. *)
Lemma adjust_outcome f uid pid b d :
  pending d = [] ->
  let out := run f (adjust uid pid b) d in
  exists new,
    sent (snd out) = new ++ sent d /\
    pending (snd out) = [] /\
    ((status (fst out) <> 200 /\ committed (snd out) = committed d) \/
     (truthy (quantity b) = true /\ truthy (movement_type b) = true /\
      (forall s, In s new -> f s = None) /\
      exists row others z m,
        rows_of pid (committed d) = row :: others /\
        switch_movement_type (movement_type b) (quantity b)
          (Num (Storage.quantity row)) = inr (Num z) /\
        in_int4 z = true /\
        (m_product_id m = pid /\ m_user_id m = uid /\
         required (varchar 50) (bind (movement_type b)) = Some (m_movement_type m) /\
         required int4_in (bind (quantity b)) = Some (m_quantity m) /\
         nullable (varchar 100) (bind (reference_number b)) =
           Some (m_reference_number m) /\
         nullable text_in (bind (notes b)) = Some (m_notes m) /\
         references_user uid (committed d) = true) /\
        fst out = {| status := 200;
                     json := AdjustedBody "Inventory adjusted successfully"
                               (Num (Storage.quantity row)) (Num z) |} /\
        committed (snd out) =
          apply_writes (committed d) [SetQuantity pid z; AddMovement m])).
Proof.
  destruct d as [c t l]. unfold pending. cbn [txn committed sent].
  intros Hp. cbv zeta. unfold adjust.
  destruct (truthy (quantity b)) eqn:Hq, (truthy (movement_type b)) eqn:Hm;
    cbn [negb orb];
    try (exists []; split; [reflexivity|]; split; [exact Hp|];
         left; split; [cbn; lia | reflexivity]).
  cbn [run Server.await rollback_and_throw exec txn pending committed sent
       effect_of visible apply_writes fold_left app after_error
       fst snd].
  destruct t as [|ws|]; [| subst ws |];
    repeat case_step f.
  all: match goal with
       | |- exists new, ?L = new ++ ?l /\ _ =>
           let p := prefix_of L l in exists p; split; [reflexivity|]
       end.
  all: split; [reflexivity|].
  all: try (left; split; [cbn; lia | reflexivity]).
  all: right; split; [reflexivity|]; split; [reflexivity|]; split;
       [ intros s' Hs; cbn [In] in Hs;
         repeat (destruct Hs as [<- | Hs]; [assumption|]); contradiction |].
  all: match goal with
       | Es : select_inventory _ _ = Selected _ |- _ =>
           apply select_selected in Es
       end.
  all: match goal with
       | Eu : update_inventory _ _ = Written _ |- _ =>
           destruct (update_written _ _ _ Eu) as (z & -> & -> & Hz)
       end.
  all: match goal with
       | Ei : insert_movement _ _ _ _ _ _ _ = Written _ |- _ =>
           destruct (insert_written _ _ _ _ _ _ _ _ Ei)
             as (m & -> & Hm1 & Hm2 & Hm3 & Hm4 & Hm5 & Hm6 & Hm7)
       end.
  all: eexists _, _, z, m; repeat split; try eassumption; reflexivity.
Qed.

End Atomicity.

Module Adjust.
Import Numerals Facts Atomicity Spec Scenario.

Lemma idle_db d :
  txn d = Idle -> d = {| committed := committed d; txn := Idle; sent := sent d |}.
Proof. destruct d; cbn; intros ->; reflexivity. Qed.

Lemma idle_pending d : txn d = Idle -> pending d = [].
Proof. unfold pending. intros ->. reflexivity. Qed.

(** What [parseInt] reads as a number other than zero is truthy. *)
Lemma parsed_truthy v q : parseInt v = Num q -> q <> 0 -> truthy v = true.
Proof.
  destruct v as [| |[|]|[|z]|s]; try discriminate.
  - intros H Hq. cbn [truthy]. destruct (Z.eqb_spec z 0) as [->|]; [|reflexivity].
    cbn in H. inversion H. congruence.
  - destruct s; [discriminate | reflexivity].
Qed.

(** A JSON number that an INTEGER column accepts is stored as it is,
    and [parseInt] reads it as it is. *)
Lemma number_accepted z m :
  required int4_in (bind (VNumber (Num z))) = Some m ->
  m = z /\ in_int4 z = true /\ parseInt (VNumber (Num z)) = Num z.
Proof.
  cbn [bind to_string required]. rewrite int4_in_number.
  destruct (in_int4 z) eqn:E; [|discriminate].
  intros H; inversion H; subst m. repeat split.
  apply parseInt_number, in_int4_small, E.
Qed.

Lemma int4_in_range s n : int4_in s = Some n -> in_int4 n = true.
Proof.
  unfold int4_in. destruct (leading_sign (skip_spaces s)) as [sign s1].
  destruct (integer_radix s1) as [[R lead] s2].
  destruct (read_integer R lead s2 None) as [[[m|] tail]|]; try discriminate.
  destruct (skip_spaces tail); [|discriminate].
  destruct (in_int4 (sign * m)) eqn:E; [|discriminate].
  intros H; inversion H; subst. exact E.
Qed.

Lemma accepted_range v n :
  required int4_in (bind v) = Some n -> in_int4 n = true.
Proof.
  destruct (bind v) as [text|]; [|discriminate]. apply int4_in_range.
Qed.

Lemma string_truthy text v :
  is_string text v = true -> text <> EmptyString -> truthy v = true.
Proof.
  intros H Ht. apply is_string_eq in H. subst v. cbn.
  destruct text; [contradiction | reflexivity].
Qed.

(** A call whose switch throws sends neither UPDATE nor INSERT and
    changes nothing, whatever the storage does. *)
Lemma adjust_thrown f uid pid b d :
  pending d = [] ->
  (forall row others, rows_of pid (committed d) = row :: others ->
     exists message,
       switch_movement_type (movement_type b) (quantity b)
         (Num (Storage.quantity row)) = inl message) ->
  committed (snd (run f (adjust uid pid b) d)) = committed d.
Proof.
  intros Hp Hthrow.
  destruct (adjust_outcome f uid pid b d Hp) as (new & _ & _ & [[_ H] | H]);
    [exact H|].
  destruct H as (_ & _ & _ & row & others & z & m & Hrows & Hsw & _).
  destruct (Hthrow _ _ Hrows) as [message Hm]. congruence.
Qed.



(** A switch that yields a quantity has met one of its three types. *)
Lemma switch_kind mt q cur n :
  switch_movement_type mt q cur = inr n ->
  exists kind, mt = VString kind /\
    (kind = "IN" \/ kind = "OUT" \/ kind = "ADJUSTMENT").
Proof.
  unfold switch_movement_type. intros Hsw.
  destruct (is_string "IN" mt) eqn:E1;
    [apply is_string_eq in E1; eauto|].
  destruct (is_string "OUT" mt) eqn:E2;
    [apply is_string_eq in E2; eauto|].
  destruct (is_string "ADJUSTMENT" mt) eqn:E3;
    [apply is_string_eq in E3; eauto 6 | discriminate].
Qed.

(** The type of the movement row is the type of the request. *)
Lemma kind_stored kind text :
  kind = "IN" \/ kind = "OUT" \/ kind = "ADJUSTMENT" ->
  required (varchar 50) (bind (VString kind)) = Some text ->
  text = kind.
Proof.
  intros [->|[->| ->]] H; cbn in H; inversion H; reflexivity.
Qed.


End Adjust.

Module Claims.
Import Numerals Facts Atomicity Adjust Spec Scenario.

(** C1: the quantity is not kept non-negative.  On a product with
    quantity 50 the call Adjust(ADJUSTMENT, -5) is accepted, answers 200
    with (50, -5) and commits the quantity -5; Adjust(IN, -60) on the
    same product commits -10.  Only the OUT branch of the switch checks
    the new quantity. *)
Theorem negative_quantity_committed :
  let adjustment :=
    run reliable (adjust None 1 (request_body (number (-5)) (VString "ADJUSTMENT")))
        (fresh 50) in
  let incoming :=
    run reliable (adjust None 1 (request_body (number (-60)) (VString "IN")))
        (fresh 50) in
  non_negative (committed (fresh 50)) /\
  fst adjustment =
    {| status := 200;
       json := AdjustedBody "Inventory adjusted successfully" (Num 50) (Num (-5)) |} /\
  map Storage.quantity (inventory (committed (snd adjustment))) = [-5] /\
  ~ non_negative (committed (snd adjustment)) /\
  status (fst incoming) = 200 /\
  map Storage.quantity (inventory (committed (snd incoming))) = [-10] /\
  ~ non_negative (committed (snd incoming)).
Proof.
  cbv zeta. repeat split; try reflexivity.
  - repeat constructor. cbn. lia.
  - intros H. inversion H as [|? ? Hq _]. cbn in Hq. lia.
  - intros H. inversion H as [|? ? Hq _]. cbn in Hq. lia.
Qed.

(** C2, as the claim states it, fails in two ways.  A requested
    quantity of 1e21 exceeds the current quantity 50, but [parseInt]
    reads the number through its text [1e+21] as 1: the call is not
    refused for insufficient stock, the UPDATE is sent with 49 and the
    INSERT is refused.  And on a quantity of -5 the requested quantity
    0, sent as a number, exceeds the current quantity, but the presence
    check answers 400.  In both cases nothing is stored. *)
Lemma out_beyond_stock_not_insufficient :
  let large :=
    run reliable
      (adjust None 1 (request_body (number 1000000000000000000000) (VString "OUT")))
      (fresh 50) in
  let zero :=
    run reliable (adjust None 1 (request_body (number 0) (VString "OUT")))
        (fresh (-5)) in
  50 - 1000000000000000000000 < 0 /\
  ~ reports InsufficientStock (fst large) /\
  status (fst large) = 500 /\
  sent (snd large) =
    [ROLLBACK;
     INSERT_movement 1 None (VString "OUT") (number 1000000000000000000000)
       VUndefined VUndefined;
     UPDATE_inventory (Num 49) 1; SELECT_inventory 1; BEGIN] /\
  committed (snd large) = shop 50 /\
  -5 - 0 < 0 /\
  ~ reports InsufficientStock (fst zero) /\
  status (fst zero) = 400 /\
  snd zero = fresh (-5).
Proof.
  vm_compute. repeat split; try reflexivity; discriminate.
Qed.

(** C2 (amended): an OUT call whose quantity passes the presence check
    and is read by parseInt as a number q with current - q < 0, on a
    product that has an inventory row, is answered with the error
    payload "Insufficient stock" when the client has no transaction
    open and the storage does not fail; only BEGIN, the SELECT and
    ROLLBACK are sent, so the quantity is unchanged and no movement row
    is appended; and whatever the storage does the committed tables
    stay as they were. *)
Theorem out_insufficient_stock uid pid b d row others q :
  txn d = Idle ->
  rows_of pid (committed d) = row :: others ->
  truthy (quantity b) = true ->
  is_string "OUT" (movement_type b) = true ->
  parseInt (quantity b) = Num q ->
  Storage.quantity row - q < 0 ->
  reports InsufficientStock (fst (run reliable (adjust uid pid b) d)) /\
  run reliable (adjust uid pid b) d =
    ({| status := 500; json := ErrorBody "Insufficient stock" |},
     {| committed := committed d; txn := Idle;
        sent := ROLLBACK :: SELECT_inventory pid :: BEGIN :: sent d |}) /\
  forall f, committed (snd (run f (adjust uid pid b) d)) = committed d.
Proof.
  intros Hidle Hrows Htruthy Hout Hq Hlt.
  assert (Hsw : forall r, Storage.quantity r = Storage.quantity row ->
            switch_movement_type (movement_type b) (quantity b)
              (Num (Storage.quantity r)) = inl "Insufficient stock").
  { intros r Hr. unfold switch_movement_type.
    rewrite (is_string_eq _ _ Hout). cbn [is_string String.eqb Ascii.eqb Bool.eqb].
    rewrite Hq, Hr. cbn [sub lt].
    destruct (Z.ltb_spec (Storage.quantity row - q) 0); [reflexivity | lia]. }
  assert (Hrun : run reliable (adjust uid pid b) d =
    ({| status := 500; json := ErrorBody "Insufficient stock" |},
     {| committed := committed d; txn := Idle;
        sent := ROLLBACK :: SELECT_inventory pid :: BEGIN :: sent d |})).
  { rewrite (idle_db d Hidle) at 1.
    rewrite (adjust_switch uid pid b _ _ row others Htruthy
               (string_truthy _ _ Hout ltac:(discriminate)) Hrows).
    rewrite (Hsw row eq_refl). reflexivity. }
  split; [rewrite Hrun; reflexivity|]. split; [exact Hrun|].
  intros f. apply adjust_thrown; [apply idle_pending, Hidle|].
  intros row' others' Hrows'. rewrite Hrows in Hrows'.
  inversion Hrows'; subst. eauto.
Qed.

(** Scenario B: Adjust(OUT, 60) on quantity 50 fails with "Insufficient
    stock" and leaves quantity 50 and no movement. *)
Lemma out_insufficient_stock_scenario_B :
  run reliable (adjust None 1 (request_body (number 60) (VString "OUT")))
      (fresh 50) =
    ({| status := 500; json := ErrorBody "Insufficient stock" |},
     {| committed := shop 50; txn := Idle;
        sent := [ROLLBACK; SELECT_inventory 1; BEGIN] |}).
Proof.
  destruct (out_insufficient_stock None 1
              (request_body (number 60) (VString "OUT")) (fresh 50)
              (stock 50 10) [] 60) as (_ & Hrun & _);
    [reflexivity | reflexivity | reflexivity | reflexivity | reflexivity
    | cbn; lia |].
  exact Hrun.
Defined.

(** C3: Adjust is atomic.  Whatever statement fails, for whatever
    reason, a call on a client without uncommitted writes ends in one of
    two ways: the answer is not 200 and the committed tables are as they
    were, or the answer is 200, no statement failed, and the committed
    tables hold both the new quantity and the new movement row.  The
    client is left without uncommitted writes.  In particular a failing
    INSERT after the UPDATE leaves the quantity as it was. *)
Theorem adjust_atomic f uid pid b d :
  pending d = [] ->
  let out := run f (adjust uid pid b) d in
  exists new,
    sent (snd out) = new ++ sent d /\
    pending (snd out) = [] /\
    ((status (fst out) <> 200 /\ committed (snd out) = committed d) \/
     (status (fst out) = 200 /\
      (forall s, In s new -> f s = None) /\
      exists z m,
        m_product_id m = pid /\
        committed (snd out) =
          apply_writes (committed d) [SetQuantity pid z; AddMovement m])).
Proof.
  intros Hp. cbv zeta.
  destruct (adjust_outcome f uid pid b d Hp) as (new & Hs & Hp' & H).
  exists new. split; [exact Hs|]. split; [exact Hp'|].
  destruct H as [H | (_ & _ & Hf & row & others & z & m & _ & _ & _ & Hi & Hr & Hc)].
  - left. exact H.
  - right. split; [rewrite Hr; reflexivity|]. split; [exact Hf|].
    exists z, m. split; [exact (proj1 Hi) | exact Hc].
Qed.

(** The INSERT of the movement fails after the UPDATE was sent: the
    answer is 500 and the quantity is still 0. *)
Lemma adjust_atomic_insert_fails :
  exists new,
    sent (snd (run insert_fails
                 (adjust None 1 (request_body (number 50) (VString "IN")))
                 (fresh 0))) = new ++ [] /\
    pending (snd (run insert_fails
                 (adjust None 1 (request_body (number 50) (VString "IN")))
                 (fresh 0))) = [] /\
    ((status (fst (run insert_fails
                 (adjust None 1 (request_body (number 50) (VString "IN")))
                 (fresh 0))) <> 200 /\
      committed (snd (run insert_fails
                 (adjust None 1 (request_body (number 50) (VString "IN")))
                 (fresh 0))) = shop 0) \/
     (status (fst (run insert_fails
                 (adjust None 1 (request_body (number 50) (VString "IN")))
                 (fresh 0))) = 200 /\
      (forall s, In s new -> insert_fails s = None) /\
      exists z m,
        m_product_id m = 1 /\
        committed (snd (run insert_fails
                 (adjust None 1 (request_body (number 50) (VString "IN")))
                 (fresh 0))) =
          apply_writes (shop 0) [SetQuantity 1 z; AddMovement m])).
Proof.
  exact (adjust_atomic insert_fails None 1
           (request_body (number 50) (VString "IN")) (fresh 0) eq_refl).
Defined.










(** C7, as the claim states it, fails for a zero magnitude sent as the
    number 0: Adjust(OUT, 0) is refused by the presence check with
    status 400, it is not processed. *)
Lemma out_zero_refused :
  ~ (status
       (fst (run reliable (adjust None 1 (request_body (number 0) (VString "OUT")))
                 (fresh 50))) = 200) /\
  run reliable (adjust None 1 (request_body (number 0) (VString "OUT"))) (fresh 50) =
    ({| status := 400; json := ErrorBody "Quantity and movement type are required" |},
     fresh 50).
Proof.
  split; [cbn; discriminate | reflexivity].
Qed.

(** C7 (amended): the route checks no sign.  On a client with no
    transaction open and a storage that does not fail, for a product
    that has an inventory row, a request whose quantity passes the
    presence check and is read by parseInt as an integer n of any sign,
    zero included, reaches the UPDATE: it is sent with current + n for
    IN, with current - n for OUT unless that is negative, and with n
    for ADJUSTMENT, as long as that value fits the INTEGER column; and
    when the call is answered 200 that value is the committed quantity.
    The number 0 itself is refused by the presence check with status
    400. *)
Theorem sign_not_validated uid pid b :
  (quantity b = VNumber (Num 0) ->
   forall f d,
     run f (adjust uid pid b) d =
       ({| status := 400;
           json := ErrorBody "Quantity and movement type are required" |}, d)) /\
  (forall d row others n kind z,
     txn d = Idle ->
     rows_of pid (committed d) = row :: others ->
     truthy (quantity b) = true ->
     parseInt (quantity b) = Num n ->
     movement_type b = VString kind ->
     (kind = "IN" /\ z = Storage.quantity row + n) \/
     (kind = "OUT" /\ z = Storage.quantity row - n /\ 0 <= z) \/
     (kind = "ADJUSTMENT" /\ z = n) ->
     in_int4 z = true ->
     let out := run reliable (adjust uid pid b) d in
     (exists later,
        sent (snd out) =
          later ++ UPDATE_inventory (Num z) pid :: SELECT_inventory pid
                   :: BEGIN :: sent d) /\
     (status (fst out) = 200 ->
      fst out =
        {| status := 200;
           json := AdjustedBody "Inventory adjusted successfully"
                     (Num (Storage.quantity row)) (Num z) |} /\
      exists m,
        committed (snd out) =
          apply_writes (committed d) [SetQuantity pid z; AddMovement m])).
Proof.
  split.
  - intros Hq f d. apply adjust_presence. rewrite Hq. reflexivity.
  - intros d row others n kind z Hidle Hrows Htruthy Hn Hkind Hz Hrange.
    cbv zeta.
    assert (Hsw : switch_movement_type (movement_type b) (quantity b)
                    (Num (Storage.quantity row)) = inr (Num z)).
    { unfold switch_movement_type. rewrite Hkind, Hn. cbn [add sub lt].
      destruct Hz as [[-> ->] | [(-> & -> & Hpos) | [-> ->]]];
        cbn [is_string String.eqb Ascii.eqb Bool.eqb]; try reflexivity.
      destruct (Z.ltb_spec (Storage.quantity row - n) 0); [lia | reflexivity]. }
    assert (Hmt : truthy (movement_type b) = true).
    { rewrite Hkind. destruct Hz as [[-> _] | [(-> & _) | [-> _]]]; reflexivity. }
    split.
    + pose proof (adjust_switch uid pid b (committed d) (sent d) row others
                    Htruthy Hmt Hrows) as Hrun.
      rewrite <- (idle_db d Hidle) in Hrun. rewrite Hrun, Hsw.
      cbv zeta. unfold update_inventory. rewrite int4_in_number, Hrange.
      destruct (insert_movement _ _ _ _ _ _ _) eqn:Ei;
        try (unfold insert_movement in Ei; split_matches Ei; discriminate);
        cbn [snd sent].
      * eexists [_; _]. reflexivity.
      * eexists [_; _]. reflexivity.
    + intros Hok.
      destruct (adjust_outcome reliable uid pid b d (idle_pending d Hidle))
        as (new & _ & _ & [[Hno _] | H]); [contradiction|].
      destruct H as (_ & _ & _ & row' & others' & z' & m & Hrows' & Hsw' & _
                     & _ & Hans & Hc).
      rewrite Hrows in Hrows'. inversion Hrows'; subst row' others'.
      rewrite Hsw in Hsw'. inversion Hsw'; subst z'.
      split; [exact Hans|]. exists m. exact Hc.
Qed.

(** Adjust(IN, -5) on quantity 50 is processed and takes the quantity
    down to 45; Adjust(OUT, "0") is processed and leaves 50. *)
Lemma sign_not_validated_examples :
  fst (run reliable (adjust None 1 (request_body (number (-5)) (VString "IN")))
           (fresh 50)) =
    {| status := 200;
       json := AdjustedBody "Inventory adjusted successfully" (Num 50) (Num 45) |} /\
  fst (run reliable (adjust None 1 (request_body (VString "0") (VString "OUT")))
           (fresh 50)) =
    {| status := 200;
       json := AdjustedBody "Inventory adjusted successfully" (Num 50) (Num 50) |}.
Proof.
  split.
  - refine (proj1 (proj2 (proj2 (sign_not_validated None 1
                     (request_body (number (-5)) (VString "IN")))
                     (fresh 50) (stock 50 10) [] (-5) "IN" 45
                     eq_refl eq_refl eq_refl eq_refl eq_refl _ eq_refl)
                   eq_refl)).
    left; split; reflexivity.
  - refine (proj1 (proj2 (proj2 (sign_not_validated None 1
                     (request_body (VString "0") (VString "OUT")))
                     (fresh 50) (stock 50 10) [] 0 "OUT" 50
                     eq_refl eq_refl eq_refl eq_refl eq_refl _ eq_refl)
                   eq_refl)).
    right; left; repeat split; cbn; lia.
Defined.




End Claims.

Module LowStock.
Import Spec Scenario.

(** A key that occurs once selects exactly one row. *)
Lemma filter_key_unique {A} (key : A -> Z) (k : Z) (l : list A) :
  NoDup (map key l) -> In k (map key l) ->
  exists x, filter (fun y => k =? key y) l = [x] /\ key x = k.
Proof.
  induction l as [|a l IH]; cbn [map filter]; intros Hnd Hin; [contradiction|].
  inversion Hnd as [|? ? Hnotin Hnd']; subst.
  destruct (Z.eqb_spec k (key a)) as [->|Hne].
  - exists a. split; [|reflexivity]. f_equal.
    clear IH Hin Hnd Hnd'. induction l as [|b l IHl]; [reflexivity|].
    cbn [map filter] in *.
    destruct (Z.eqb_spec (key a) (key b)) as [E|_].
    + exfalso. apply Hnotin. left. symmetry. exact E.
    + apply IHl. intros H. apply Hnotin. right. exact H.
  - destruct Hin as [E|Hin]; [congruence|]. exact (IH Hnd' Hin).
Qed.

(** A key without duplicates selects at most one row. *)
Lemma filter_key_at_most_one {A} (key : A -> Z) (k : Z) (l : list A) :
  NoDup (map key l) ->
  filter (fun y => key y =? k) l = [] \/
  exists x, filter (fun y => key y =? k) l = [x].
Proof.
  induction l as [|a l IH]; cbn [map filter]; intros Hnd; [left; reflexivity|].
  inversion Hnd as [|? ? Hnotin Hnd']; subst.
  destruct (Z.eqb_spec (key a) k) as [<-|Hne]; [|exact (IH Hnd')].
  right. exists a. f_equal.
  clear IH Hnd Hnd'. induction l as [|b l IHl]; [reflexivity|].
  cbn [map filter] in *.
  destruct (Z.eqb_spec (key b) (key a)) as [E|_].
  - exfalso. apply Hnotin. left. exact E.
  - apply IHl. intros H. apply Hnotin. right. exact H.
Qed.

Lemma left_join_one st i p :
  NoDup (map c_id (categories st)) ->
  exists r, left_join_categories st i p = [r] /\ row r = i.
Proof.
  intros Hnd. unfold left_join_categories.
  destruct (p_category_id p) as [cid|]; [|eexists; split; reflexivity].
  destruct (filter_key_at_most_one c_id cid (categories st) Hnd) as [-> | [c ->]];
    eexists; split; reflexivity.
Qed.

(** Under referential integrity the joins give each inventory row
    once. *)
Lemma join_products_one st i :
  integrity st -> In i (inventory st) ->
  exists r, join_products st i = [r] /\ row r = i.
Proof.
  intros (Hp & Hc & Hfk) Hin. unfold join_products.
  rewrite Forall_forall in Hfk.
  destruct (filter_key_unique p_id (product_id i) (products st) Hp (Hfk i Hin))
    as (p & -> & _).
  cbn [flat_map]. rewrite app_nil_r. exact (left_join_one st i p Hc).
Qed.

Lemma joined_rows st l :
  integrity st -> incl l (inventory st) ->
  map row (flat_map (join_products st) l) = l.
Proof.
  intros Hint. induction l as [|i l IH]; intros Hincl; [reflexivity|].
  cbn [flat_map]. rewrite map_app.
  destruct (join_products_one st i Hint (Hincl i (or_introl eq_refl)))
    as (r & -> & Hr).
  cbn [map app]. rewrite Hr. f_equal. apply IH.
  intros x Hx. apply Hincl. right. exact Hx.
Qed.

Lemma insert_perm x l : Permutation (x :: l) (insert_by_quantity x l).
Proof.
  induction l as [|y l IH]; cbn [insert_by_quantity]; [reflexivity|].
  destruct (Storage.quantity (row x) <? Storage.quantity (row y)); [reflexivity|].
  rewrite perm_swap. apply perm_skip. exact IH.
Qed.

Lemma insert_sorted x l :
  Sorted by_quantity l -> Sorted by_quantity (insert_by_quantity x l).
Proof.
  induction l as [|y l IH]; cbn [insert_by_quantity]; intros Hs.
  - repeat constructor.
  - destruct (Z.ltb_spec (Storage.quantity (row x)) (Storage.quantity (row y)))
      as [Hlt|Hge].
    + constructor; [exact Hs|]. constructor. unfold by_quantity. lia.
    + inversion Hs as [|? ? Hs' Hhd]; subst.
      constructor; [exact (IH Hs')|].
      destruct l as [|z l]; cbn [insert_by_quantity].
      * constructor. exact Hge.
      * destruct (Storage.quantity (row x) <? Storage.quantity (row z)).
        -- constructor. exact Hge.
        -- inversion Hhd; subst. constructor. assumption.
Qed.

Lemma order_from acc l :
  Sorted by_quantity acc ->
  Sorted by_quantity (fold_left (fun sorted x => insert_by_quantity x sorted) l acc) /\
  Permutation (l ++ acc) (fold_left (fun sorted x => insert_by_quantity x sorted) l acc).
Proof.
  revert acc. induction l as [|x l IH]; intros acc Hs; cbn [fold_left app].
  - split; [exact Hs | reflexivity].
  - destruct (IH (insert_by_quantity x acc) (insert_sorted x acc Hs)) as [H1 H2].
    split; [exact H1|]. rewrite <- H2.
    rewrite <- (insert_perm x acc). apply Permutation_middle.
Qed.

Lemma order_by_quantity_sorted l : Sorted by_quantity (order_by_quantity l).
Proof. apply (order_from [] l). constructor. Qed.

Lemma order_by_quantity_perm l : Permutation l (order_by_quantity l).
Proof.
  rewrite <- (app_nil_r l) at 1. apply (order_from [] l). constructor.
Qed.

Lemma sorted_rows l : Sorted by_quantity l -> ascending (map row l).
Proof.
  induction 1 as [|x l Hs IH Hhd]; cbn [map]; constructor; [exact IH|].
  destruct Hhd; cbn [map]; constructor. assumption.
Qed.

Lemma is_low_spec i :
  is_low i = true <->
  exists level, min_stock_level i = Some level /\ Storage.quantity i <= level.
Proof.
  unfold is_low. destruct (min_stock_level i) as [level|].
  - rewrite Z.leb_le. split; [eauto|]. intros (l' & E & H). inversion E; subst. exact H.
  - split; [discriminate|]. intros (l' & E & _). discriminate.
Qed.

(** C8: under the referential integrity of the tables, the low-stock
    listing holds exactly the inventory rows whose quantity is at most
    their minimum stock level, each once, in ascending order of
    quantity. *)
Theorem low_stock_listing st :
  integrity st ->
  Permutation (filter is_low (inventory st)) (map row (low_stock st)) /\
  ascending (map row (low_stock st)) /\
  forall i,
    In i (map row (low_stock st)) <->
    In i (inventory st) /\
    exists level, min_stock_level i = Some level /\ Storage.quantity i <= level.
Proof.
  intros Hint. unfold low_stock.
  assert (Hperm : Permutation (filter is_low (inventory st))
                    (map row (order_by_quantity
                       (flat_map (join_products st) (filter is_low (inventory st)))))).
  { rewrite <- order_by_quantity_perm.
    rewrite joined_rows; [reflexivity | exact Hint |].
    intros x Hx. apply filter_In in Hx. tauto. }
  split; [exact Hperm|]. split.
  - apply sorted_rows, order_by_quantity_sorted.
  - intros i. rewrite <- is_low_spec, <- filter_In. split; intros H.
    + eapply Permutation_in; [symmetry; exact Hperm | exact H].
    + eapply Permutation_in; [exact Hperm | exact H].
Qed.

(** Scenario D: quantity 5 with minimum level 10 is listed, quantity 15
    with minimum level 10 is not. *)
Lemma low_stock_scenario_D :
  In (stock 5 10) (map row (low_stock (shop 5))) /\
  ~ In (stock 15 10) (map row (low_stock (shop 15))).
Proof.
  assert (Hint : forall q, integrity (shop q)).
  { intros q. repeat split; cbn.
    - repeat constructor. intros [].
    - constructor.
    - repeat constructor. }
  split.
  - apply (proj2 (proj2 (low_stock_listing (shop 5) (Hint 5)))).
    split; [left; reflexivity|]. exists 10. split; [reflexivity | cbn; lia].
  - intros H.
    apply (proj2 (proj2 (low_stock_listing (shop 15) (Hint 15)))) in H.
    destruct H as (_ & level & E & Hle). inversion E; subst. cbn in Hle. lia.
Defined.

End LowStock.

Module Race.
Import Concurrent Spec Scenario.

(** [explore] misses no end of any schedule. *)
Lemma explore_sound fuel : forall sys finals,
  explore fuel sys = Some finals ->
  forall sched sys',
    run_schedule sched sys = Some sys' -> stuck sys' -> In sys' finals.
Proof.
  induction fuel as [|fuel IH]; intros sys finals He sched sys' Hrun Hstuck;
    [discriminate|].
  cbn [explore] in He.
  destruct sched as [|t sched]; cbn [run_schedule] in Hrun.
  - inversion Hrun; subst sys'. destruct Hstuck as [H1 H2].
    rewrite H1, H2 in He. inversion He. left. reflexivity.
  - destruct t.
    + destruct (step First sys) as [a|] eqn:Ea; [|discriminate].
      destruct (step Second sys) as [b|] eqn:Eb.
      * destruct (explore fuel a) as [la|] eqn:Ha; [|discriminate].
        destruct (explore fuel b) as [lb|] eqn:Hb; [|discriminate].
        inversion He; subst finals. apply in_or_app. left.
        exact (IH a la Ha sched sys' Hrun Hstuck).
      * exact (IH a finals He sched sys' Hrun Hstuck).
    + destruct (step Second sys) as [b|] eqn:Eb; [|discriminate].
      destruct (step First sys) as [a|] eqn:Ea.
      * destruct (explore fuel a) as [la|] eqn:Ha; [|discriminate].
        destruct (explore fuel b) as [lb|] eqn:Hb; [|discriminate].
        inversion He; subst finals. apply in_or_app. right.
        exact (IH b lb Hb sched sys' Hrun Hstuck).
      * exact (IH b finals He sched sys' Hrun Hstuck).
Qed.

Lemma number_eqb_eq a b : number_eqb a b = true -> a = b.
Proof.
  destruct a, b; cbn; try discriminate; [reflexivity|].
  intros H. apply Z.eqb_eq in H. congruence.
Qed.

Lemma response_eqb_eq a b : response_eqb a b = true -> a = b.
Proof.
  destruct a as [sa ja], b as [sb jb]. unfold response_eqb. cbn [status json].
  intros H. apply andb_true_iff in H. destruct H as [Hs Hj].
  apply Z.eqb_eq in Hs. subst sb. f_equal.
  destruct ja, jb; try discriminate.
  - apply String.eqb_eq in Hj. congruence.
  - apply andb_true_iff in Hj. destruct Hj as [Hj Hn].
    apply andb_true_iff in Hj. destruct Hj as [Hm Ho].
    apply String.eqb_eq in Hm. apply number_eqb_eq in Ho, Hn. congruence.
Qed.

Lemma answers_eq a1 a2 x y n m :
  response_eqb a1 x && response_eqb a2 y && (n =? m)%nat = true ->
  a1 = x /\ a2 = y /\ n = m.
Proof.
  intros H. apply andb_true_iff in H. destruct H as [H Hn].
  apply andb_true_iff in H. destruct H as [H1 H2].
  apply response_eqb_eq in H1, H2. apply Nat.eqb_eq in Hn. auto.
Qed.

Lemma two_outs_end_spec sys :
  two_outs_end sys = true ->
  map Storage.quantity (inventory (shared sys)) = [4] /\
  ((answers sys = Some (adjusted_10_4, adjusted_10_4) /\
    List.length (stock_movements (shared sys)) = 2%nat) \/
   (answers sys = Some (adjusted_10_4, insufficient) /\
    List.length (stock_movements (shared sys)) = 1%nat) \/
   (answers sys = Some (insufficient, adjusted_10_4) /\
    List.length (stock_movements (shared sys)) = 1%nat)).
Proof.
  unfold two_outs_end.
  destruct (map Storage.quantity (inventory (shared sys))) as [|q [|? ?]];
    try discriminate.
  destruct (answers sys) as [[a1 a2]|]; [|discriminate].
  intros H. apply andb_true_iff in H. destruct H as [Hq H].
  apply Z.eqb_eq in Hq. subst q. split; [reflexivity|].
  apply orb_true_iff in H. destruct H as [H|H];
    [apply orb_true_iff in H; destruct H as [H|H]|];
    apply answers_eq in H; destruct H as (-> & -> & ->); auto.
Qed.

(** C9: two OUT calls on the same product are not serialized.  The
    route reads the row with a plain SELECT inside its transaction and
    takes no lock, so when both requests read the row before either
    writes it, both OUT calls for 6 on quantity 10 pass the stock check
    and succeed: two successes instead of one success and one
    rejection, two movement rows for 12 units issued, and a final
    quantity of 4.  Run one after the other the same two calls give
    one success and one rejection. *)
Theorem two_outs_both_succeed :
  (exists sys,
     run_schedule both_read_first two_outs = Some sys /\
     answers sys = Some (adjusted_10_4, adjusted_10_4) /\
     map Storage.quantity (inventory (shared sys)) = [4] /\
     map m_movement_type (stock_movements (shared sys)) = ["OUT"; "OUT"] /\
     map m_quantity (stock_movements (shared sys)) = [6; 6]) /\
  ~ one_success_one_rejection (adjusted_10_4, adjusted_10_4) /\
  (exists sys,
     run_schedule one_after_the_other two_outs = Some sys /\
     answers sys = Some (adjusted_10_4, insufficient) /\
     one_success_one_rejection (adjusted_10_4, insufficient) /\
     map Storage.quantity (inventory (shared sys)) = [4]).
Proof.
  split; [|split].
  - let r := eval vm_compute in (run_schedule both_read_first two_outs) in
    match r with
    | Some ?s => exists s
    end.
    vm_compute. repeat split; reflexivity.
  - intros [[_ H] | [H _]]; vm_compute in H; discriminate.
  - let r := eval vm_compute in (run_schedule one_after_the_other two_outs) in
    match r with
    | Some ?s => exists s
    end.
    split; [vm_compute; reflexivity|].
    split; [vm_compute; reflexivity|].
    split; [left; split; reflexivity | vm_compute; reflexivity].
Qed.

(** X22: every way the statements of two OUT calls for 6 on a product
    with quantity 10 can interleave.  Run one after the other they give
    one success and one rejection for insufficient stock, with final
    quantity 4.  Whatever the schedule, once both have answered the
    quantity is 4, never negative, and either one call succeeded and the
    other was rejected, with one movement row, or both succeeded, with
    two movement rows. *)
Theorem two_outs_outcomes :
  option_map
    (fun sys => (answers sys, map Storage.quantity (inventory (shared sys))))
    (run_schedule one_after_the_other two_outs) =
    Some (Some (adjusted_10_4, insufficient), [4]) /\
  one_success_one_rejection (adjusted_10_4, insufficient) /\
  (forall sched sys,
     run_schedule sched two_outs = Some sys ->
     stuck sys ->
     map Storage.quantity (inventory (shared sys)) = [4] /\
     ((answers sys = Some (adjusted_10_4, adjusted_10_4) /\
       List.length (stock_movements (shared sys)) = 2%nat) \/
      (answers sys = Some (adjusted_10_4, insufficient) /\
       List.length (stock_movements (shared sys)) = 1%nat) \/
      (answers sys = Some (insufficient, adjusted_10_4) /\
       List.length (stock_movements (shared sys)) = 1%nat))).
Proof.
  split; [vm_compute; reflexivity|].
  split; [left; split; reflexivity|].
  intros sched sys Hrun Hstuck. apply two_outs_end_spec.
  assert (Hall : match explore 12 two_outs with
                 | Some finals => forallb two_outs_end finals
                 | None => false
                 end = true) by (vm_compute; reflexivity).
  destruct (explore 12 two_outs) as [finals|] eqn:He; [|discriminate].
  rewrite forallb_forall in Hall. apply Hall.
  exact (explore_sound 12 two_outs finals He sched sys Hrun Hstuck).
Qed.

(** The schedule in which both requests read first ends with
    quantity 4 and two movement rows. *)
Lemma two_outs_interleaved :
  option_map (fun sys => map Storage.quantity (inventory (shared sys)))
             (run_schedule both_read_first two_outs) = Some [4].
Proof.
  pose proof (proj2 (proj2 two_outs_outcomes) both_read_first) as H.
  let r := eval vm_compute in (run_schedule both_read_first two_outs) in
  match r with
  | Some ?s =>
      specialize (H s);
      replace (run_schedule both_read_first two_outs) with (Some s) in *
        by (vm_compute; reflexivity)
  end.
  destruct (H eq_refl (conj eq_refl eq_refl)) as [Hq _].
  cbn [option_map]. rewrite Hq. reflexivity.
Defined.

End Race.

Module Invariant.
Import Facts Atomicity Adjust Spec.

Lemma set_quantity_non_negative pid z st m :
  0 <= z -> non_negative st ->
  non_negative (apply_writes st [SetQuantity pid z; AddMovement m]).
Proof.
  unfold non_negative. cbn [apply_writes fold_left apply_write inventory].
  intros Hz H. rewrite Forall_forall in *. intros r Hr.
  apply in_map_iff in Hr. destruct Hr as (r0 & <- & Hin).
  unfold set_quantity. destruct (product_id r0 =? pid); cbn; auto.
Qed.

(** The OUT branch never yields a negative quantity; the other two
    branches yield what they are given. *)
Lemma switch_sign mt q cur z :
  0 <= cur ->
  switch_movement_type mt q (Num cur) = inr (Num z) ->
  is_string "OUT" mt = true \/ (exists n, parseInt q = Num n /\ 0 <= n) ->
  0 <= z.
Proof.
  intros Hcur Hsw Hsafe. unfold switch_movement_type in Hsw.
  destruct (is_string "IN" mt) eqn:E1.
  - destruct Hsafe as [Hout | (n & Hn & Hpos)].
    + apply is_string_eq in E1, Hout. congruence.
    + rewrite Hn in Hsw. cbn in Hsw. inversion Hsw. lia.
  - destruct (is_string "OUT" mt) eqn:E2.
    + destruct (parseInt q) as [|n]; cbn [sub lt] in Hsw; [discriminate|].
      destruct (Z.ltb_spec (cur - n) 0); [discriminate|].
      inversion Hsw. lia.
    + destruct (is_string "ADJUSTMENT" mt); [|discriminate].
      destruct Hsafe as [Hout | (n & Hn & Hpos)]; [discriminate|].
      rewrite Hn in Hsw. inversion Hsw. lia.
Qed.

(** One call that keeps the sign keeps every quantity non-negative,
    whatever the storage does. *)
Lemma non_negative_kept f c d :
  pending d = [] ->
  non_negative (committed d) ->
  keeps_sign c ->
  let d' := snd (run f (adjust (actor c) (target c) (payload c)) d) in
  pending d' = [] /\ non_negative (committed d').
Proof.
  intros Hp Hnn Hsafe. cbv zeta.
  destruct (adjust_outcome f (actor c) (target c) (payload c) d Hp)
    as (new & _ & Hp' & H).
  split; [exact Hp'|].
  destruct H as [[_ ->] | H]; [exact Hnn|].
  destruct H as (_ & _ & _ & row & others & z & m & Hrows & Hsw & _ & _ & _ & ->).
  apply set_quantity_non_negative; [|exact Hnn].
  apply (switch_sign (movement_type (payload c)) (quantity (payload c))
           (Storage.quantity row) z); [| exact Hsw | exact Hsafe].
  assert (Hin : In row (inventory (committed d))).
  { unfold rows_of in Hrows.
    assert (Hf : In row (filter (fun r => product_id r =? target c)
                           (inventory (committed d))))
      by (rewrite Hrows; left; reflexivity).
    apply filter_In in Hf. tauto. }
  unfold non_negative in Hnn. rewrite Forall_forall in Hnn. exact (Hnn row Hin).
Qed.

(** X1: Calls that keep the sign, served one after the other, never commit
    a negative quantity. *)
Lemma non_negative_kept_by_calls f calls : forall d,
  pending d = [] ->
  non_negative (committed d) ->
  Forall keeps_sign calls ->
  non_negative (committed (serve f calls d)).
Proof.
  induction calls as [|c calls IH]; intros d Hp Hnn Hall; cbn [serve];
    [exact Hnn|].
  inversion Hall as [|? ? Hc Hrest]; subst.
  destruct (non_negative_kept f c d Hp Hnn Hc) as [Hp' Hnn'].
  exact (IH _ Hp' Hnn' Hrest).
Qed.

End Invariant.

(** ** Properties of the other routes *)

Module Ledger.
Import Numerals Facts Atomicity Adjust Invariant Spec Scenario Frame.

(** The run of the adjust route on a product without inventory row
    whose id is within the range of an INTEGER. *)
Lemma adjust_no_rows uid pid b d :
  txn d = Idle ->
  rows_of pid (committed d) = [] ->
  in_int4 pid = true ->
  truthy (quantity b) = true ->
  truthy (movement_type b) = true ->
  run reliable (adjust uid pid b) d =
    ({| status := 404; json := ErrorBody "Product inventory not found" |},
     {| committed := committed d; txn := Open [];
        sent := SELECT_inventory pid :: BEGIN :: sent d |}).
Proof.
  intros Hidle Hrows Hpid Hq Hm.
  rewrite (idle_db d Hidle) at 1. unfold adjust.
  rewrite Hq, Hm.
  cbn [negb orb run Server.await exec reliable txn pending committed sent
       effect_of visible apply_writes fold_left].
  rewrite (select_no_rows _ _ Hrows), Hpid. reflexivity.
Qed.

(** X2: the product has no inventory row.  When its id is within the
    range of an INTEGER the answer is 404 and only BEGIN and the SELECT
    are sent, so the route returns with the transaction it began still
    open on the client it releases; when the id is outside the range
    the SELECT is refused, ROLLBACK follows and the answer is 500.
    Either way nothing is written, whatever the storage does. *)
Theorem adjust_not_found uid pid b d :
  txn d = Idle ->
  rows_of pid (committed d) = [] ->
  truthy (quantity b) = true ->
  truthy (movement_type b) = true ->
  (in_int4 pid = true ->
   run reliable (adjust uid pid b) d =
     ({| status := 404; json := ErrorBody "Product inventory not found" |},
      {| committed := committed d; txn := Open [];
         sent := SELECT_inventory pid :: BEGIN :: sent d |})) /\
  (in_int4 pid = false ->
   status (fst (run reliable (adjust uid pid b) d)) = 500 /\
   snd (run reliable (adjust uid pid b) d) =
     {| committed := committed d; txn := Idle;
        sent := ROLLBACK :: SELECT_inventory pid :: BEGIN :: sent d |}) /\
  forall f, committed (snd (run f (adjust uid pid b) d)) = committed d.
Proof.
  intros Hidle Hrows Hq Hm. split; [|split].
  - intros Hpid. exact (adjust_no_rows uid pid b d Hidle Hrows Hpid Hq Hm).
  - intros Hpid.
    assert (Hrun : run reliable (adjust uid pid b)
                     {| committed := committed d; txn := Idle; sent := sent d |} =
                   (internal_error "value out of range for type integer",
                    {| committed := committed d; txn := Idle;
                       sent := ROLLBACK :: SELECT_inventory pid :: BEGIN
                               :: sent d |})).
    { unfold adjust. rewrite Hq, Hm.
      cbn [negb orb run Server.await exec reliable txn pending committed sent
           effect_of visible apply_writes fold_left].
      rewrite (select_no_rows _ _ Hrows), Hpid. reflexivity. }
    rewrite <- (idle_db d Hidle) in Hrun. rewrite Hrun. split; reflexivity.
  - intros f. apply adjust_thrown; [apply idle_pending, Hidle|].
    intros row others Hrows'. congruence.
Qed.

Lemma adjust_not_found_example :
  run reliable (adjust None 2 (request_body (number 5) (VString "IN"))) (fresh 50) =
    ({| status := 404; json := ErrorBody "Product inventory not found" |},
     {| committed := shop 50; txn := Open [];
        sent := [SELECT_inventory 2; BEGIN] |}).
Proof.
  exact (proj1 (adjust_not_found None 2 (request_body (number 5) (VString "IN"))
                  (fresh 50) eq_refl eq_refl eq_refl eq_refl) eq_refl).
Defined.





(** X4: the movement table only grows, by at most one row per call:
    after a call, on any storage, it is as before, or as before with
    one row appended for the product and the user of the call, of type
    IN, OUT or ADJUSTMENT as requested, whose quantity is the integer
    the INTEGER column reads from the quantity of the request. *)
Theorem movements_append_only f uid pid b d :
  pending d = [] ->
  stock_movements (committed (snd (run f (adjust uid pid b) d))) =
    stock_movements (committed d) \/
  exists m,
    stock_movements (committed (snd (run f (adjust uid pid b) d))) =
      stock_movements (committed d) ++ [m] /\
    status (fst (run f (adjust uid pid b) d)) = 200 /\
    m_product_id m = pid /\
    m_user_id m = uid /\
    recognized_kind (m_movement_type m) /\
    movement_type b = VString (m_movement_type m) /\
    required int4_in (bind (quantity b)) = Some (m_quantity m).
Proof.
  intros Hp.
  destruct (adjust_outcome f uid pid b d Hp) as (new & _ & _ & [[_ ->] | H]);
    [left; reflexivity|].
  destruct H as (_ & _ & _ & row & others & z & m & _ & Hsw & _ & Hm & Hr & ->).
  destruct Hm as (Hpid & Huid & Hmt & Hq & _).
  right. exists m.
  split; [reflexivity|]. split; [rewrite Hr; reflexivity|].
  split; [exact Hpid|]. split; [exact Huid|].
  destruct (switch_kind _ _ _ _ Hsw) as (kind & Hkind & Hknown).
  rewrite Hkind in Hmt. rewrite (kind_stored _ _ Hknown Hmt).
  repeat split; assumption.
Qed.

(** A call that fails on the INSERT leaves the movement table as it
    was. *)
Lemma movements_append_only_example :
  stock_movements (committed (snd (run insert_fails
     (adjust None 1 (request_body (number 50) (VString "IN"))) (fresh 0)))) = [] \/
  exists m,
    stock_movements (committed (snd (run insert_fails
       (adjust None 1 (request_body (number 50) (VString "IN"))) (fresh 0)))) =
      [] ++ [m] /\
    status (fst (run insert_fails
       (adjust None 1 (request_body (number 50) (VString "IN"))) (fresh 0))) = 200 /\
    m_product_id m = 1 /\
    m_user_id m = None /\
    recognized_kind (m_movement_type m) /\
    VString "IN" = VString (m_movement_type m) /\
    required int4_in (bind (number 50)) = Some (m_quantity m).
Proof.
  exact (movements_append_only insert_fails None 1
           (request_body (number 50) (VString "IN")) (fresh 0) eq_refl).
Defined.

Lemma set_quantity_pid pid z r :
  product_id (set_quantity pid z r) = product_id r.
Proof.
  unfold set_quantity. destruct (product_id r =? pid); reflexivity.
Qed.

(** The rows of a product after its quantity was set. *)
Lemma rows_after_set pid z m st :
  rows_of pid (apply_writes st [SetQuantity pid z; AddMovement m]) =
  map (set_quantity pid z) (rows_of pid st).
Proof.
  unfold rows_of. cbn [apply_writes fold_left apply_write inventory].
  induction (inventory st) as [|r l IH]; [reflexivity|].
  cbn [map filter]. rewrite set_quantity_pid.
  destruct (product_id r =? pid); cbn [map]; rewrite IH; reflexivity.
Qed.

Lemma set_quantity_twice pid z z' l :
  map (set_quantity pid z') (map (set_quantity pid z) l) =
  map (set_quantity pid z') l.
Proof.
  rewrite map_map. apply map_ext. intros r. unfold set_quantity.
  destruct (product_id r =? pid) eqn:E; cbn [product_id]; rewrite E; reflexivity.
Qed.

(** Setting the quantity of the only row of a product to the quantity
    it has changes nothing. *)
Lemma set_quantity_same pid row l :
  filter (fun r => product_id r =? pid) l = [row] ->
  map (set_quantity pid (Storage.quantity row)) l = l.
Proof.
  induction l as [|r l IH]; intros H; [reflexivity|].
  cbn [filter map] in *. unfold set_quantity at 1.
  destruct (Z.eqb_spec (product_id r) pid) as [E|E].
  - inversion H as [[Hr Hl]]. subst r. f_equal; [destruct row; reflexivity|].
    clear IH H E. induction l as [|r l IH]; [reflexivity|].
    cbn [filter map] in *. unfold set_quantity at 1.
    destruct (Z.eqb_spec (product_id r) pid); [discriminate|].
    f_equal. exact (IH Hl).
  - f_equal. exact (IH H).
Qed.

Lemma row_of_product pid st row others :
  rows_of pid st = row :: others -> product_id row = pid.
Proof.
  unfold rows_of. intros H.
  assert (Hf : In row (filter (fun r => product_id r =? pid) (inventory st)))
    by (rewrite H; left; reflexivity).
  apply filter_In in Hf. destruct Hf as [_ Hf]. apply Z.eqb_eq. exact Hf.
Qed.

(** X5: receiving n units and then issuing n units restores the
    inventory table.  On a product with one inventory row, when an IN
    call and then an OUT call, both with a quantity that parseInt reads
    as n, are both answered 200 (on a client without uncommitted
    writes, whatever the storage does), the first answer is (current,
    current + n), the second (current + n, current), the inventory
    table is as it was before the two calls, and the movement table
    has grown by two rows for the product, an IN and then an OUT. *)
Theorem in_then_out_restores f1 f2 uid pid d row n b_in b_out :
  pending d = [] ->
  rows_of pid (committed d) = [row] ->
  movement_type b_in = VString "IN" ->
  movement_type b_out = VString "OUT" ->
  parseInt (quantity b_in) = Num n ->
  parseInt (quantity b_out) = Num n ->
  let first := run f1 (adjust uid pid b_in) d in
  let second := run f2 (adjust uid pid b_out) (snd first) in
  status (fst first) = 200 ->
  status (fst second) = 200 ->
  fst first =
    {| status := 200;
       json := AdjustedBody "Inventory adjusted successfully"
                 (Num (Storage.quantity row)) (Num (Storage.quantity row + n)) |} /\
  fst second =
    {| status := 200;
       json := AdjustedBody "Inventory adjusted successfully"
                 (Num (Storage.quantity row + n)) (Num (Storage.quantity row)) |} /\
  inventory (committed (snd second)) = inventory (committed d) /\
  exists m1 m2,
    stock_movements (committed (snd second)) =
      stock_movements (committed d) ++ [m1; m2] /\
    m_product_id m1 = pid /\ m_movement_type m1 = "IN" /\
    m_product_id m2 = pid /\ m_movement_type m2 = "OUT".
Proof.
  intros Hp Hrows Hin Hout Hqi Hqo. cbv zeta. intros Hok1 Hok2.
  destruct (adjust_outcome f1 uid pid b_in d Hp)
    as (new1 & _ & Hp1 & [[Hno _] | H1]); [contradiction|].
  destruct H1 as (_ & _ & _ & row1 & others1 & z1 & m1 & Hrows1 & Hsw1 & _
                  & Hm1 & Hans1 & Hc1).
  rewrite Hrows in Hrows1. inversion Hrows1; subst row1 others1.
  assert (Hz1 : z1 = Storage.quantity row + n).
  { unfold switch_movement_type in Hsw1. rewrite Hin, Hqi in Hsw1.
    cbn in Hsw1. congruence. }
  subst z1.
  destruct (adjust_outcome f2 uid pid b_out _ Hp1)
    as (new2 & _ & _ & [[Hno _] | H2]); [contradiction|].
  destruct H2 as (_ & _ & _ & row2 & others2 & z2 & m2 & Hrows2 & Hsw2 & _
                  & Hm2 & Hans2 & Hc2).
  rewrite Hc1, rows_after_set, Hrows in Hrows2. cbn [map] in Hrows2.
  inversion Hrows2; subst row2 others2.
  assert (Hq1 : Storage.quantity (set_quantity pid (Storage.quantity row + n) row)
                = Storage.quantity row + n).
  { unfold set_quantity.
    rewrite (row_of_product _ _ _ _ Hrows), Z.eqb_refl. reflexivity. }
  rewrite Hq1 in Hsw2, Hans2.
  assert (Hz2 : z2 = Storage.quantity row).
  { unfold switch_movement_type in Hsw2. rewrite Hout, Hqo in Hsw2.
    cbn [is_string String.eqb Ascii.eqb Bool.eqb sub lt] in Hsw2.
    destruct (_ <? 0); [discriminate|]. inversion Hsw2. lia. }
  subst z2.
  split; [exact Hans1|]. split; [exact Hans2|].
  rewrite Hc2, Hc1.
  cbn [apply_writes fold_left apply_write inventory stock_movements].
  split.
  - rewrite set_quantity_twice. apply set_quantity_same. exact Hrows.
  - exists m1, m2. rewrite <- app_assoc. split; [reflexivity|].
    destruct Hm1 as (Hp1' & _ & Hk1 & _). destruct Hm2 as (Hp2' & _ & Hk2 & _).
    rewrite Hin in Hk1. rewrite Hout in Hk2. cbn in Hk1, Hk2.
    repeat split; congruence.
Qed.

(** IN 7 then OUT 7 on the widget with quantity 50. *)
Lemma in_then_out_example :
  inventory (committed (snd (run reliable
     (adjust None 1 (request_body (number 7) (VString "OUT")))
     (snd (run reliable (adjust None 1 (request_body (number 7) (VString "IN")))
             (fresh 50)))))) = [stock 50 10].
Proof.
  exact (proj1 (proj2 (proj2 (in_then_out_restores reliable reliable None 1
            (fresh 50) (stock 50 10) 7
            (request_body (number 7) (VString "IN"))
            (request_body (number 7) (VString "OUT"))
            eq_refl eq_refl eq_refl eq_refl eq_refl eq_refl eq_refl eq_refl)))).
Defined.

(** X6: a quantity that would leave the range of the INTEGER column is
    not checked by the route but refused by the storage: when the
    switch yields a number outside the 32-bit range, on a client with
    no transaction open and a storage that does not fail, the UPDATE is
    sent and refused, the INSERT is not sent, the transaction is rolled
    back, the answer is 500 and nothing changes. *)
Theorem out_of_range_refused uid pid b d row others z :
  txn d = Idle ->
  rows_of pid (committed d) = row :: others ->
  truthy (quantity b) = true ->
  truthy (movement_type b) = true ->
  switch_movement_type (movement_type b) (quantity b)
    (Num (Storage.quantity row)) = inr (Num z) ->
  in_int4 z = false ->
  status (fst (run reliable (adjust uid pid b) d)) = 500 /\
  committed (snd (run reliable (adjust uid pid b) d)) = committed d /\
  txn (snd (run reliable (adjust uid pid b) d)) = Idle /\
  exists newQuantity,
    sent (snd (run reliable (adjust uid pid b) d)) =
      ROLLBACK :: UPDATE_inventory newQuantity pid
      :: SELECT_inventory pid :: BEGIN :: sent d.
Proof.
  intros Hidle Hrows Hq Hm Hsw Hz.
  pose proof (adjust_switch uid pid b (committed d) (sent d) row others
                Hq Hm Hrows) as Hrun.
  rewrite <- (idle_db d Hidle) in Hrun. rewrite Hrun, Hsw. cbv zeta.
  unfold update_inventory. rewrite int4_in_number, Hz.
  repeat split. eexists. reflexivity.
Qed.

(** One more unit on a full INTEGER column. *)
Lemma out_of_range_example :
  status (fst (run reliable
                 (adjust None 1 (request_body (number 1) (VString "IN")))
                 (fresh 2147483647))) = 500 /\
  committed (snd (run reliable
                    (adjust None 1 (request_body (number 1) (VString "IN")))
                    (fresh 2147483647))) = shop 2147483647.
Proof.
  destruct (out_of_range_refused None 1 (request_body (number 1) (VString "IN"))
              (fresh 2147483647) (stock 2147483647 10) [] 2147483648
              eq_refl eq_refl eq_refl eq_refl eq_refl eq_refl)
    as (Hs & Hc & _).
  split; [exact Hs | exact Hc].
Defined.

(** Three calls that keep the sign, the second refused: no quantity is
    negative afterwards. *)
Lemma non_negative_kept_example :
  non_negative (committed (serve reliable
    [{| actor := None; target := 1;
        payload := request_body (number 20) (VString "OUT") |};
     {| actor := None; target := 1;
        payload := request_body (number 40) (VString "OUT") |};
     {| actor := None; target := 1;
        payload := request_body (VString "5") (VString "IN") |}]
    (fresh 50))).
Proof.
  apply (non_negative_kept_by_calls reliable _ (fresh 50) eq_refl).
  - repeat constructor. cbn. lia.
  - constructor; [left; reflexivity|].
    constructor; [left; reflexivity|].
    constructor; [|constructor].
    right. exists 5. split; [reflexivity | lia].
Defined.

End Ledger.

Module CatalogFacts.
Import Numerals Facts Atomicity Adjust Spec Scenario Catalog LowStock Ledger.

Lemma filter_keeps_nodup {A} (key : A -> Z) (keep : A -> bool) (l : list A) :
  NoDup (map key l) -> NoDup (map key (filter keep l)).
Proof.
  induction l as [|a l IH]; cbn [map filter]; intros H; [constructor|].
  inversion H as [|? ? Hnotin Hnd]; subst.
  destruct (keep a); [|exact (IH Hnd)].
  cbn [map]. constructor; [|exact (IH Hnd)].
  intros Hin. apply Hnotin. apply in_map_iff in Hin.
  destruct Hin as (x & Hx & Hf). apply filter_In in Hf.
  apply in_map_iff. exists x. tauto.
Qed.

Lemma key_kept {A} (key : A -> Z) (id k : Z) (l : list A) :
  In k (map key l) -> k <> id ->
  In k (map key (filter (fun x => negb (key x =? id)) l)).
Proof.
  intros Hin Hne. apply in_map_iff in Hin. destruct Hin as (x & Hx & Hin).
  apply in_map_iff. exists x. split; [exact Hx|].
  apply filter_In. split; [exact Hin|].
  destruct (Z.eqb_spec (key x) id); [congruence | reflexivity].
Qed.

Lemma negb_eqb_true a b : negb (a =? b) = true <-> a <> b.
Proof.
  destruct (Z.eqb_spec a b); cbn; split; congruence.
Qed.

Lemma without_product_integrity id st :
  integrity st -> integrity (without_product id st).
Proof.
  intros (Hp & Hc & Hfk). unfold integrity, without_product.
  cbn [products categories inventory]. split; [|split].
  - apply filter_keeps_nodup. exact Hp.
  - exact Hc.
  - rewrite Forall_forall in *. intros i Hi. apply filter_In in Hi.
    destruct Hi as [Hin Hne]. apply negb_eqb_true in Hne.
    apply (key_kept p_id id (product_id i)); auto.
Qed.

Lemma without_product_movements id st :
  movement_references st -> movement_references (without_product id st).
Proof.
  unfold movement_references, without_product.
  cbn [stock_movements products]. rewrite !Forall_forall.
  intros Hmov m Hm. apply filter_In in Hm. destruct Hm as [Hin Hne].
  apply negb_eqb_true in Hne. apply (key_kept p_id id (m_product_id m)); auto.
Qed.

Lemma without_product_categories id st :
  category_references st -> category_references (without_product id st).
Proof.
  unfold category_references, without_product.
  cbn [products categories]. rewrite !Forall_forall.
  intros Hcat q Hq. apply filter_In in Hq. destruct Hq as [Hin _].
  exact (Hcat q Hin).
Qed.

Lemma filter_filter_out {A} (key : A -> Z) (id : Z) (l : list A) :
  filter (fun x => key x =? id) (filter (fun x => negb (key x =? id)) l) = [].
Proof.
  induction l as [|a l IH]; [reflexivity|].
  cbn [filter]. destruct (Z.eqb_spec (key a) id) as [E|E]; cbn [negb filter].
  - exact IH.
  - destruct (Z.eqb_spec (key a) id); [contradiction | exact IH].
Qed.

Lemma without_product_gone id st :
  ~ In id (map p_id (products (without_product id st))) /\
  rows_of id (without_product id st) = [] /\
  Forall (fun m => m_product_id m <> id)
    (stock_movements (without_product id st)) /\
  existsb (fun p => p_id p =? id) (products (without_product id st)) = false.
Proof.
  unfold without_product, rows_of. cbn [products inventory stock_movements].
  split; [|split; [|split]].
  - intros Hin. apply in_map_iff in Hin. destruct Hin as (x & Hx & Hf).
    apply filter_In in Hf. destruct Hf as [_ Hne].
    apply negb_eqb_true in Hne. contradiction.
  - apply (filter_filter_out product_id id).
  - apply Forall_forall. intros m Hm. apply filter_In in Hm.
    destruct Hm as [_ Hne]. apply negb_eqb_true in Hne. exact Hne.
  - destruct (existsb _ _) eqn:E; [|reflexivity].
    apply existsb_exists in E. destruct E as (p & Hp & Hid).
    apply filter_In in Hp. destruct Hp as [_ Hne].
    rewrite Hid in Hne. discriminate.
Qed.

(** Every way the deletion of a product can go on a client with no
    transaction open. *)
Lemma delete_product_idle f id d :
  txn d = Idle ->
  txn (snd (delete_product f id d)) = Idle /\
  ((code (fst (delete_product f id d)) = 200 /\
    in_int4 id = true /\
    f (DELETE_product id) = None /\
    existsb (fun p => p_id p =? id) (products (committed d)) = true /\
    committed (snd (delete_product f id d)) = without_product id (committed d)) \/
   (code (fst (delete_product f id d)) <> 200 /\
    committed (snd (delete_product f id d)) = committed d)).
Proof.
  destruct d as [c t l]. cbn [txn committed]. intros ->.
  unfold delete_product. rewrite exec_faults.
  destruct (f (DELETE_product id)) as [e|]; [split; [reflexivity|]; right;
    split; [discriminate | reflexivity]|].
  unfold exec, reliable.
  cbn [txn committed sent pending visible apply_writes fold_left effect_of].
  unfold delete_product_row.
  destruct (in_int4 id);
    [|split; [reflexivity|]; right; split; [discriminate | reflexivity]].
  destruct (existsb (fun p => p_id p =? id) (products c)).
  - split; [reflexivity|]. left. repeat split.
  - split; [reflexivity|]. right. split; [discriminate | reflexivity].
Qed.

(** X7: [DELETE /api/products/:id] on a client of the pool that has no
    transaction open keeps the tables consistent: whatever the answer
    and whatever the storage does, the keys stay unique and every
    inventory row, every movement row and every category reference
    still points at an existing row, and the client is left without a
    transaction; and after the answer 200 no committed table mentions
    the product any more. *)
Theorem delete_product_consistent f id d :
  txn d = Idle ->
  integrity (committed d) ->
  movement_references (committed d) ->
  category_references (committed d) ->
  txn (snd (delete_product f id d)) = Idle /\
  integrity (committed (snd (delete_product f id d))) /\
  movement_references (committed (snd (delete_product f id d))) /\
  category_references (committed (snd (delete_product f id d))) /\
  (code (fst (delete_product f id d)) = 200 ->
   ~ In id (map p_id (products (committed (snd (delete_product f id d))))) /\
   rows_of id (committed (snd (delete_product f id d))) = [] /\
   Forall (fun m => m_product_id m <> id)
     (stock_movements (committed (snd (delete_product f id d))))).
Proof.
  intros Hidle Hint Hmov Hcat.
  destruct (delete_product_idle f id d Hidle)
    as (Ht & [(Hok & _ & _ & _ & Hc) | (Hno & Hc)]);
    rewrite Hc; split; try exact Ht.
  - split; [apply without_product_integrity, Hint|].
    split; [apply without_product_movements, Hmov|].
    split; [apply without_product_categories, Hcat|].
    intros _. destruct (without_product_gone id (committed d)) as (H1 & H2 & H3 & _).
    auto.
  - split; [exact Hint|]. split; [exact Hmov|]. split; [exact Hcat|].
    intros H. contradiction.
Qed.

Lemma warehouse_integrity : integrity Samples.warehouse.
Proof.
  unfold integrity. cbn. split; [|split].
  - constructor; [cbn; intuition discriminate|].
    constructor; [intros []|constructor].
  - constructor; [intros []|constructor].
  - constructor; [left; reflexivity|].
    constructor; [right; left; reflexivity|constructor].
Qed.

Lemma warehouse_movements : movement_references Samples.warehouse.
Proof.
  unfold movement_references. cbn.
  constructor; [right; left; reflexivity | constructor].
Qed.

Lemma warehouse_categories : category_references Samples.warehouse.
Proof.
  unfold category_references. cbn.
  constructor; [exact I|]. constructor; [left; reflexivity | constructor].
Qed.

(** Deleting the hammer leaves the widget alone and consistent. *)
Lemma delete_product_example :
  integrity (committed (snd (delete_product reliable 2
     {| committed := Samples.warehouse; txn := Idle; sent := [] |}))) /\
  rows_of 2 (committed (snd (delete_product reliable 2
     {| committed := Samples.warehouse; txn := Idle; sent := [] |}))) = [] /\
  stock_movements (committed (snd (delete_product reliable 2
     {| committed := Samples.warehouse; txn := Idle; sent := [] |}))) = [].
Proof.
  destruct (delete_product_consistent reliable 2
              {| committed := Samples.warehouse; txn := Idle; sent := [] |}
              eq_refl warehouse_integrity warehouse_movements
              warehouse_categories)
    as (_ & Hi & _ & _ & H).
  destruct (H eq_refl) as (_ & Hr & _).
  split; [exact Hi|]. split; [exact Hr | reflexivity].
Defined.

(** X8: once a product is deleted on a client with no transaction
    open, it is gone for the other routes: after the answer 200 a second
    DELETE answers 404 and changes nothing, and an adjust call on it
    answers 404 and writes nothing. *)
Theorem deleted_product_not_found f id d uid b :
  txn d = Idle ->
  code (fst (delete_product f id d)) = 200 ->
  truthy (quantity b) = true ->
  truthy (movement_type b) = true ->
  fst (delete_product reliable id (snd (delete_product f id d))) =
    {| code := 404; content_of := Failure "Product not found" |} /\
  committed (snd (delete_product reliable id (snd (delete_product f id d)))) =
    committed (snd (delete_product f id d)) /\
  fst (run reliable (adjust uid id b) (snd (delete_product f id d))) =
    {| status := 404; json := ErrorBody "Product inventory not found" |} /\
  committed (snd (run reliable (adjust uid id b) (snd (delete_product f id d)))) =
    committed (snd (delete_product f id d)).
Proof.
  intros Hidle Hok Hq Hm.
  destruct (delete_product_idle f id d Hidle)
    as (Ht & [(_ & Hid & _ & _ & Hc) | (Hno & _)]); [|contradiction].
  destruct (without_product_gone id (committed d)) as (_ & Hrows & _ & Hgone).
  rewrite <- Hc in Hrows, Hgone.
  set (d1 := snd (delete_product f id d)) in *.
  split; [|split].
  - unfold delete_product. rewrite (idle_db d1 Ht).
    unfold exec, reliable.
    cbn [txn committed sent pending visible apply_writes fold_left effect_of].
    unfold delete_product_row. rewrite Hid, Hgone. reflexivity.
  - unfold delete_product. rewrite (idle_db d1 Ht).
    unfold exec, reliable.
    cbn [txn committed sent pending visible apply_writes fold_left effect_of].
    unfold delete_product_row. rewrite Hid, Hgone. reflexivity.
  - rewrite (adjust_no_rows uid id b d1 Ht Hrows Hid Hq Hm).
    split; reflexivity.
Qed.

Lemma deleted_product_example :
  fst (run reliable
         (adjust None 2 (request_body (number 1) (VString "IN")))
         (snd (delete_product reliable 2
            {| committed := Samples.warehouse; txn := Idle; sent := [] |}))) =
    {| status := 404; json := ErrorBody "Product inventory not found" |}.
Proof.
  exact (proj1 (proj2 (proj2 (deleted_product_not_found reliable 2
                         {| committed := Samples.warehouse; txn := Idle;
                            sent := [] |} None
                         (request_body (number 1) (VString "IN"))
                         eq_refl eq_refl eq_refl eq_refl)))).
Defined.

(** Which inventory rows the low-stock listing holds. *)
Lemma listing_perm st :
  integrity st ->
  Permutation (filter is_low (inventory st)) (map row (low_stock st)).
Proof.
  intros Hint. unfold low_stock.
  rewrite <- order_by_quantity_perm.
  rewrite joined_rows; [reflexivity | exact Hint |].
  intros x Hx. apply filter_In in Hx. tauto.
Qed.

Lemma listing_mem st i :
  integrity st ->
  In i (map row (low_stock st)) <-> In i (inventory st) /\ is_low i = true.
Proof.
  intros Hint. rewrite <- filter_In. split; intros H.
  - eapply Permutation_in; [symmetry; exact (listing_perm st Hint) | exact H].
  - eapply Permutation_in; [exact (listing_perm st Hint) | exact H].
Qed.

(** X9: deleting a product on a client with no transaction open takes
    exactly its rows out of the low-stock listing. *)
Theorem listing_after_delete f id d :
  txn d = Idle ->
  integrity (committed d) ->
  code (fst (delete_product f id d)) = 200 ->
  forall i,
    In i (map row (low_stock (committed (snd (delete_product f id d))))) <->
    In i (map row (low_stock (committed d))) /\ product_id i <> id.
Proof.
  intros Hidle Hint Hok i.
  destruct (delete_product_idle f id d Hidle)
    as (_ & [(_ & _ & _ & _ & Hc) | (Hno & _)]); [|contradiction].
  rewrite Hc.
  rewrite (listing_mem _ i (without_product_integrity id _ Hint)).
  rewrite (listing_mem _ i Hint).
  unfold without_product. cbn [inventory]. rewrite filter_In, negb_eqb_true.
  tauto.
Qed.

Lemma listing_after_delete_example :
  In (stock 5 10)
     (map row (low_stock (committed (snd (delete_product reliable 2
        {| committed := Samples.warehouse; txn := Idle; sent := [] |}))))) /\
  ~ In Samples.hammer_stock
      (map row (low_stock (committed (snd (delete_product reliable 2
         {| committed := Samples.warehouse; txn := Idle; sent := [] |}))))).
Proof.
  pose proof (listing_after_delete reliable 2
                {| committed := Samples.warehouse; txn := Idle; sent := [] |}
                eq_refl warehouse_integrity eq_refl) as H.
  split.
  - apply H. split; [|cbn; discriminate].
    apply (listing_mem _ _ warehouse_integrity). split; [left; reflexivity | reflexivity].
  - intros Hin. apply H in Hin. destruct Hin as [_ Hne]. apply Hne. reflexivity.
Defined.

(** X23: a deletion can be lost on a client of the pool.  The adjust
    route returns its answer 404 without ending the transaction it
    began, so the client goes back to the pool inside a transaction.
    A DELETE of an existing product that [pool.query] then runs on this
    client is answered 200, but it is not committed: the committed
    tables still hold the product.  When the next adjust call on this
    client fails, its ROLLBACK discards the deletion, and the product
    is still there although its deletion was answered 200. *)
Theorem deletion_lost_on_leaked_client uid pid b id d pid' b' row others :
  txn d = Idle ->
  rows_of pid (committed d) = [] ->
  in_int4 pid = true ->
  truthy (quantity b) = true ->
  truthy (movement_type b) = true ->
  in_int4 id = true ->
  existsb (fun p => p_id p =? id) (products (committed d)) = true ->
  rows_of pid' (without_product id (committed d)) = row :: others ->
  truthy (quantity b') = true ->
  truthy (movement_type b') = true ->
  is_string "IN" (movement_type b') = false ->
  is_string "OUT" (movement_type b') = false ->
  is_string "ADJUSTMENT" (movement_type b') = false ->
  let leaked := snd (run reliable (adjust uid pid b) d) in
  let deleted := delete_product reliable id leaked in
  let after := run reliable (adjust uid pid' b') (snd deleted) in
  status (fst (run reliable (adjust uid pid b) d)) = 404 /\
  txn leaked = Open [] /\
  code (fst deleted) = 200 /\
  committed (snd deleted) = committed d /\
  txn (snd deleted) = Open [RemoveProduct id] /\
  status (fst after) = 500 /\
  committed (snd after) = committed d /\
  txn (snd after) = Idle.
Proof.
  intros Hidle Hrows Hpid Hq Hm Hid Hfound Hrows' Hq' Hm' H1 H2 H3. cbv zeta.
  rewrite (adjust_no_rows uid pid b d Hidle Hrows Hpid Hq Hm). cbn [fst snd status txn].
  split; [reflexivity|]. split; [reflexivity|].
  unfold delete_product, exec, reliable.
  cbn [txn committed sent pending visible apply_writes fold_left effect_of].
  unfold delete_product_row. rewrite Hid, Hfound.
  cbn [fst snd code committed txn app].
  split; [reflexivity|]. split; [reflexivity|]. split; [reflexivity|].
  unfold adjust. rewrite Hq', Hm'.
  cbn [negb orb run Server.await rollback_and_throw exec reliable txn pending
       committed sent effect_of visible apply_writes fold_left apply_write].
  rewrite (select_rows _ _ _ _ Hrows').
  unfold switch_movement_type. rewrite H1, H2, H3.
  cbn [run Server.await rollback_and_throw exec reliable txn pending
       committed sent fst snd status internal_error].
  repeat split.
Qed.

(** The hammer is deleted on a client that an adjust call on a missing
    product has left inside a transaction; a call with the unknown type
    TRANSFER on the widget then rolls the deletion back. *)
Lemma deletion_lost_example :
  code (fst (delete_product reliable 2
    (snd (run reliable (adjust None 3 (request_body (number 1) (VString "IN")))
            {| committed := Samples.warehouse; txn := Idle; sent := [] |})))) = 200 /\
  committed (snd (run reliable
    (adjust None 1 (request_body (number 1) (VString "TRANSFER")))
    (snd (delete_product reliable 2
       (snd (run reliable (adjust None 3 (request_body (number 1) (VString "IN")))
               {| committed := Samples.warehouse; txn := Idle; sent := [] |})))))) =
    Samples.warehouse.
Proof.
  destruct (deletion_lost_on_leaked_client None 3
              (request_body (number 1) (VString "IN")) 2
              {| committed := Samples.warehouse; txn := Idle; sent := [] |}
              1 (request_body (number 1) (VString "TRANSFER"))
              (stock 5 10) []
              eq_refl eq_refl eq_refl eq_refl eq_refl eq_refl eq_refl eq_refl
              eq_refl eq_refl eq_refl eq_refl eq_refl)
    as (_ & _ & Hok & _ & _ & _ & Hc & _).
  split; [exact Hok | exact Hc].
Defined.

Lemma leave_category_id id p : p_id (leave_category id p) = p_id p.
Proof. unfold leave_category. destruct (in_category id p); reflexivity. Qed.

Lemma leave_category_ids id l : map p_id (map (leave_category id) l) = map p_id l.
Proof.
  rewrite map_map. apply map_ext. intros p. apply leave_category_id.
Qed.

Lemma in_category_spec id p :
  in_category id p = true <-> p_category_id p = Some id.
Proof.
  unfold in_category. destruct (p_category_id p) as [c|].
  - rewrite Z.eqb_eq. split; congruence.
  - split; discriminate.
Qed.

(** X10: [DELETE /api/categories/:id] of [server.js]: a category that still
    has a product is never deleted, the answer is 500 and nothing
    changes; whatever the answer, every product keeps pointing at an
    existing category, the products and the inventory are as they were
    and the keys stay unique. *)
Theorem delete_category_keeps_references fault id st :
  integrity st ->
  category_references st ->
  integrity (snd (delete_category fault id st)) /\
  category_references (snd (delete_category fault id st)) /\
  products (snd (delete_category fault id st)) = products st /\
  inventory (snd (delete_category fault id st)) = inventory st /\
  (existsb (in_category id) (products st) = true ->
   code (fst (delete_category fault id st)) <> 200 /\
   snd (delete_category fault id st) = st).
Proof.
  intros Hint Hcat. unfold delete_category.
  destruct fault as [e|];
    [cbn; repeat (split; [assumption || reflexivity|]); intros _;
     split; [discriminate | reflexivity]|].
  destruct (filter (fun c => c_id c =? id) (categories st)) as [|c cs];
    [cbn; repeat (split; [assumption || reflexivity|]); intros _;
     split; [discriminate | reflexivity]|].
  destruct (existsb (in_category id) (products st)) eqn:Eused;
    [cbn; repeat (split; [assumption || reflexivity|]); intros _;
     split; [discriminate | reflexivity]|].
  cbn [fst snd code]. unfold without_category.
  cbn [products inventory categories].
  split; [|split; [|split; [reflexivity|split; [reflexivity|discriminate]]]].
  - destruct Hint as (Hp & Hc & Hfk). unfold integrity.
    cbn [products inventory categories].
    split; [exact Hp|]. split; [|exact Hfk].
    apply filter_keeps_nodup. exact Hc.
  - unfold category_references in *. cbn [products categories].
    rewrite Forall_forall in *. intros p Hp. specialize (Hcat p Hp).
    destruct (p_category_id p) as [k|] eqn:Ek; [|exact I].
    apply (key_kept c_id id k); [exact Hcat|].
    intros ->. assert (Hx : existsb (in_category id) (products st) = true).
    { apply existsb_exists. exists p. split; [exact Hp|].
      apply in_category_spec. exact Ek. }
    congruence.
Qed.

(** The category of the hammer cannot be deleted. *)
Lemma delete_category_example :
  code (fst (delete_category None 7 Samples.warehouse)) <> 200 /\
  snd (delete_category None 7 Samples.warehouse) = Samples.warehouse.
Proof.
  exact (proj2 (proj2 (proj2 (proj2
           (delete_category_keeps_references None 7 Samples.warehouse
              warehouse_integrity warehouse_categories)))) eq_refl).
Defined.

Lemma set_null_integrity id st :
  integrity st -> integrity (without_category_set_null id st).
Proof.
  intros (Hp & Hc & Hfk). unfold integrity, without_category_set_null.
  cbn [products inventory categories]. rewrite leave_category_ids.
  split; [exact Hp|]. split; [|exact Hfk].
  apply filter_keeps_nodup. exact Hc.
Qed.

Lemma set_null_references id st :
  category_references st ->
  category_references (without_category_set_null id st).
Proof.
  unfold category_references, without_category_set_null.
  cbn [products categories]. rewrite !Forall_forall. intros Hcat p Hp.
  apply in_map_iff in Hp. destruct Hp as (p0 & <- & Hp0).
  specialize (Hcat p0 Hp0). unfold leave_category.
  destruct (in_category id p0) eqn:E; [exact I|].
  destruct (p_category_id p0) as [k|] eqn:Ek; [|exact I].
  apply (key_kept c_id id k); [exact Hcat|].
  intros ->. apply in_category_spec in Ek. congruence.
Qed.

Lemma set_null_left id st :
  Forall (fun p => p_category_id p <> Some id)
    (products (without_category_set_null id st)).
Proof.
  unfold without_category_set_null. cbn [products].
  apply Forall_forall. intros p Hp.
  apply in_map_iff in Hp. destruct Hp as (p0 & <- & _).
  unfold leave_category. destruct (in_category id p0) eqn:E; [discriminate|].
  intros Hk. apply in_category_spec in Hk. congruence.
Qed.

(** Every way the deletion of a category can go on a client with no
    transaction open. *)
Lemma delete_category_idle f id d :
  txn d = Idle ->
  txn (snd (delete_category_set_null f id d)) = Idle /\
  ((code (fst (delete_category_set_null f id d)) = 200 /\
    committed (snd (delete_category_set_null f id d)) =
      without_category_set_null id (committed d)) \/
   (code (fst (delete_category_set_null f id d)) <> 200 /\
    committed (snd (delete_category_set_null f id d)) = committed d)).
Proof.
  destruct d as [c t l]. cbn [txn committed]. intros ->.
  unfold delete_category_set_null. rewrite exec_faults.
  destruct (f (DELETE_category id)) as [e|]; [split; [reflexivity|]; right;
    split; [discriminate | reflexivity]|].
  unfold exec, reliable.
  cbn [txn committed sent pending visible apply_writes fold_left effect_of].
  unfold delete_category_row.
  destruct (in_int4 id);
    [|split; [reflexivity|]; right; split; [discriminate | reflexivity]].
  destruct (existsb (fun c0 => c_id c0 =? id) (categories c)).
  - split; [reflexivity|]. left. repeat split.
  - split; [reflexivity|]. right. split; [discriminate | reflexivity].
Qed.

(** X11: [DELETE /api/categories/:id] of the authenticated variant, with
    the reference declared ON DELETE SET NULL, on a client of the pool
    that has no transaction open: whatever the answer and whatever the
    storage does, no product is lost, every remaining reference points
    at an existing category, the inventory is as it was and the
    low-stock listing holds the same inventory rows as before; after
    the answer 200 no product is left in the deleted category. *)
Theorem delete_category_set_null_keeps_products f id d :
  txn d = Idle ->
  integrity (committed d) ->
  category_references (committed d) ->
  integrity (committed (snd (delete_category_set_null f id d))) /\
  category_references (committed (snd (delete_category_set_null f id d))) /\
  map p_id (products (committed (snd (delete_category_set_null f id d)))) =
    map p_id (products (committed d)) /\
  inventory (committed (snd (delete_category_set_null f id d))) =
    inventory (committed d) /\
  Permutation (map row (low_stock (committed d)))
    (map row (low_stock (committed (snd (delete_category_set_null f id d))))) /\
  (code (fst (delete_category_set_null f id d)) = 200 ->
   Forall (fun p => p_category_id p <> Some id)
     (products (committed (snd (delete_category_set_null f id d))))).
Proof.
  intros Hidle Hint Hcat.
  assert (Hsame : forall st', integrity st' ->
            inventory st' = inventory (committed d) ->
            Permutation (map row (low_stock (committed d)))
                        (map row (low_stock st'))).
  { intros st' Hint' Hinv.
    rewrite <- (listing_perm _ Hint), <- (listing_perm st' Hint'), Hinv.
    reflexivity. }
  destruct (delete_category_idle f id d Hidle)
    as (_ & [(Hok & Hc) | (Hno & Hc)]); rewrite Hc.
  - pose proof (set_null_integrity id _ Hint) as Hint'.
    split; [exact Hint'|]. split; [apply set_null_references, Hcat|].
    split; [apply leave_category_ids|]. split; [reflexivity|].
    split; [apply Hsame; [exact Hint' | reflexivity]|].
    intros _. apply set_null_left.
  - split; [exact Hint|]. split; [exact Hcat|]. split; [reflexivity|].
    split; [reflexivity|]. split; [apply Hsame; [exact Hint | reflexivity]|].
    intros H. contradiction.
Qed.

(** With SET NULL the category of the hammer can be deleted and the
    hammer stays. *)
Lemma delete_category_set_null_example :
  map p_id (products (committed (snd (delete_category_set_null reliable 7
     {| committed := Samples.warehouse; txn := Idle; sent := [] |})))) =
    [1; 2] /\
  Forall (fun p => p_category_id p <> Some 7)
    (products (committed (snd (delete_category_set_null reliable 7
       {| committed := Samples.warehouse; txn := Idle; sent := [] |})))).
Proof.
  destruct (delete_category_set_null_keeps_products reliable 7
              {| committed := Samples.warehouse; txn := Idle; sent := [] |}
              eq_refl warehouse_integrity warehouse_categories)
    as (_ & _ & Hids & _ & _ & Hnone).
  split; [exact Hids | exact (Hnone eq_refl)].
Defined.

Lemma parseInt_count n :
  parseInt (VString (count_text n)) = Num (Z.of_nat n).
Proof.
  unfold count_text, parseInt. cbn [to_string]. apply parseInt_decimal.
Qed.

(** X12: The low-stock figure of the dashboard is the number of rows of the
    low-stock listing, as long as every inventory row has its product. *)
Theorem dashboard_agrees_with_listing st :
  integrity st ->
  low_stock_products st = Num (Z.of_nat (List.length (low_stock st))).
Proof.
  intros Hint. unfold low_stock_products. rewrite parseInt_count.
  rewrite (Permutation_length (listing_perm st Hint)), length_map.
  reflexivity.
Qed.

Lemma dashboard_example :
  low_stock_products Samples.warehouse = Num 2.
Proof.
  rewrite (dashboard_agrees_with_listing Samples.warehouse warehouse_integrity).
  reflexivity.
Defined.

End CatalogFacts.

Module QueryFacts.
Import Queries.

Lemma append_assoc a b c :
  ((a ++ b) ++ c)%string = (a ++ (b ++ c))%string.
Proof.
  induction a as [|x a IH]; cbn [String.append]; [reflexivity|].
  rewrite IH. reflexivity.
Qed.

Lemma placeholders_after_plain a b :
  no_dollar a = true -> placeholders (a ++ b)%string = placeholders b.
Proof.
  induction a as [|c a IH]; cbn [no_dollar String.append placeholders];
    intros H; [reflexivity|].
  apply andb_true_iff in H. destruct H as [Hc Ha].
  destruct (Ascii.eqb c "$"); [discriminate|]. exact (IH Ha).
Qed.

(** X13: [GET /api/stock-movements]: whatever the query string holds, the
    placeholders of the text built are $1 up to the number of
    parameters, in order; the last parameter is the limit, 50 when none
    is given; and the values of the request go into the parameters
    only, never into the text. *)
Theorem stock_movements_query_placeholders select product_id limit :
  no_dollar select = true ->
  let q := stock_movements_query select product_id limit in
  placeholders (text q) = one_to (List.length (params q)) /\
  last (params q) VUndefined =
    match limit with VUndefined => VNumber (Num 50) | _ => limit end /\
  text q = text (stock_movements_query select (VBool (truthy product_id)) VUndefined).
Proof.
  intros Hsel. cbv zeta. unfold stock_movements_query.
  cbn [truthy]. destruct (truthy product_id); cbn [text params].
  - rewrite !append_assoc, (placeholders_after_plain _ _ Hsel).
    split; [reflexivity|]. split; reflexivity.
  - rewrite (placeholders_after_plain _ _ Hsel).
    split; [reflexivity|]. split; reflexivity.
Qed.

Lemma stock_movements_query_example :
  placeholders (text (stock_movements_query Samples.movements_select
                        (VString "3") VUndefined)) = [1; 2] /\
  params (stock_movements_query Samples.movements_select (VString "3") VUndefined) =
    [VString "3"; VNumber (Num 50)].
Proof.
  split; [|reflexivity].
  exact (proj1 (stock_movements_query_placeholders Samples.movements_select
                  (VString "3") VUndefined eq_refl)).
Defined.

(** X14: [GET /api/products] of the authenticated variant: for every
    combination of the two filters the placeholders of the text are $1
    up to the number of parameters, in order, and the values of the
    request go into the parameters only. *)
Theorem products_query_placeholders select category_id search :
  no_dollar select = true ->
  let q := products_query select category_id search in
  placeholders (text q) = one_to (List.length (params q)) /\
  List.length (params q) =
    ((if truthy category_id then 1 else 0) + (if truthy search then 1 else 0))%nat /\
  text q = text (products_query select (VBool (truthy category_id))
                   (VBool (truthy search))).
Proof.
  intros Hsel. cbv zeta. unfold products_query. cbn [truthy].
  destruct (truthy category_id), (truthy search);
    cbn [orb text params List.length app Nat.add];
    rewrite ?append_assoc, (placeholders_after_plain _ _ Hsel);
    split; try reflexivity; split; reflexivity.
Qed.

Lemma products_query_example :
  placeholders (text (products_query "SELECT p.* FROM products p"
                        VUndefined (VString "nail"))) = [1] /\
  params (products_query "SELECT p.* FROM products p" VUndefined (VString "nail")) =
    [VString "%nail%"].
Proof.
  split; [|reflexivity].
  exact (proj1 (products_query_placeholders "SELECT p.* FROM products p"
                  VUndefined (VString "nail") eq_refl)).
Defined.

End QueryFacts.

Module AuthFacts.
Import Facts Atomicity Adjust Auth.

Lemma split_single c w : without c w = true -> split c w = [w].
Proof.
  induction w as [|x w IH]; cbn [without split]; intros H; [reflexivity|].
  apply andb_true_iff in H. destruct H as [Hx Hw].
  destruct (Ascii.eqb x c); [discriminate|]. rewrite (IH Hw). reflexivity.
Qed.

Lemma split_first c w tail :
  without c w = true ->
  split c (w ++ String c tail)%string = w :: split c tail.
Proof.
  induction w as [|x w IH]; cbn [without split String.append]; intros H.
  - rewrite Ascii.eqb_refl. reflexivity.
  - apply andb_true_iff in H. destruct H as [Hx Hw].
    destruct (Ascii.eqb x c); [discriminate|]. rewrite (IH Hw). reflexivity.
Qed.

Lemma token_of_two_words w t :
  without " " w = true -> without " " t = true ->
  token_of (Some (w ++ String " " t)%string) = Some t.
Proof.
  intros Hw Ht. unfold token_of.
  destruct (w ++ String " " t)%string eqn:E;
    [destruct w; discriminate|].
  rewrite <- E, (split_first " " w t Hw), (split_single " " t Ht). reflexivity.
Qed.

Lemma token_of_one_word w :
  without " " w = true -> falsy_token (token_of (Some w)) = true.
Proof.
  intros Hw. unfold token_of. destruct w as [|x w]; [reflexivity|].
  rewrite (split_single " " _ Hw). reflexivity.
Qed.

(** X15: The token check reads the second word of the header and nothing
    else: for a header made of a first word, one space and a non-empty
    token, both without spaces, the verifier is given exactly the token,
    whatever the first word is (Bearer, Basic, or nothing at all), and
    the request goes on with the verified user or is answered 403. *)
Theorem scheme_not_checked verify w t :
  without " " w = true ->
  without " " t = true ->
  t <> EmptyString ->
  authenticateToken verify (Some (w ++ String " " t)%string) =
  match verify t with
  | Some u => inr u
  | None => inl {| status := 403; json := ErrorBody "Invalid token" |}
  end.
Proof.
  intros Hw Ht Hne. unfold authenticateToken.
  rewrite (token_of_two_words w t Hw Ht). cbn [falsy_token].
  destruct (String.eqb_spec t EmptyString); [contradiction|].
  destruct (verify t); reflexivity.
Qed.

Lemma scheme_not_checked_example :
  authenticateToken Samples.verify_one (Some "Basic good") =
    inr {| id := 9; role := "user" |} /\
  authenticateToken Samples.verify_one (Some "Bearer bad") =
    inl {| status := 403; json := ErrorBody "Invalid token" |}.
Proof.
  split.
  - exact (scheme_not_checked Samples.verify_one "Basic" "good"
             eq_refl eq_refl ltac:(discriminate)).
  - exact (scheme_not_checked Samples.verify_one "Bearer" "bad"
             eq_refl eq_refl ltac:(discriminate)).
Defined.

(** X16: A request without a usable token never reaches the storage: when
    the header is absent, or is a single word (a bare token without a
    scheme in front included), the guarded adjust route answers 401,
    sends no statement and leaves the client and the tables as they
    were, and so does the guarded product deletion; the verifier is not
    consulted. *)
Theorem missing_token_stops_request verify authHeader f f' pid b d d' :
  authHeader = None \/
  (exists w, authHeader = Some w /\ without " " w = true) ->
  run f (adjust_authenticated verify authHeader pid b) d =
    ({| status := 401; json := ErrorBody "Access token required" |}, d) /\
  delete_product_authenticated verify authHeader f' pid d' =
    ({| Catalog.code := 401;
        Catalog.content_of := Catalog.Failure "Access token required" |}, d').
Proof.
  intros H.
  assert (Hf : falsy_token (token_of authHeader) = true).
  { destruct H as [-> | (w & -> & Hw)]; [reflexivity|].
    exact (token_of_one_word w Hw). }
  unfold adjust_authenticated, delete_product_authenticated, authenticateToken.
  rewrite Hf. split; reflexivity.
Qed.

Lemma missing_token_example :
  run reliable
      (adjust_authenticated Samples.verify_one (Some "good") 1
         (Scenario.request_body (Scenario.number 5) (VString "IN")))
      (Scenario.fresh 50) =
    ({| status := 401; json := ErrorBody "Access token required" |},
     Scenario.fresh 50).
Proof.
  exact (proj1 (missing_token_stops_request Samples.verify_one (Some "good")
                  reliable reliable 1
                  (Scenario.request_body (Scenario.number 5) (VString "IN"))
                  (Scenario.fresh 50) (Scenario.fresh 50)
                  (or_intror (ex_intro _ "good" (conj eq_refl eq_refl))))).
Defined.



End AuthFacts.

Module CreationFacts.
Import Numerals Facts Adjust Spec Catalog CatalogFacts Creation.

Lemma exec_fails sto s c :
  execute sto s c =
  match fails sto s with
  | Some message =>
      (Failed message,
       {| stored := stored c; session_of := broken (session_of c);
          log := s :: log c |})
  | None => execute {| inserted := inserted sto; fails := fun _ => None |} s c
  end.
Proof. unfold execute. cbn [fails inserted]. destruct (fails sto s); reflexivity. Qed.

Ltac creation_step sto st :=
  match goal with
  | |- context [execute sto ?s ?c] =>
      rewrite (exec_fails sto s c); destruct (fails sto s) eqn:?
  | |- context [match inserted sto with _ => _ end] =>
      destruct (inserted sto) eqn:?
  | |- context [match insert_inventory ?a ?b ?c ?d ?e with _ => _ end] =>
      destruct (insert_inventory a b c d e) eqn:?
  | |- context [if lt ?a ?b then _ else _] => destruct (lt a b) eqn:?
  | |- context [match Storage.insert_movement ?a ?b ?c ?d ?e ?g ?v with _ => _ end] =>
      let E := fresh "Em" in
      rewrite (insert_movement_users a b c d e g st v) by reflexivity;
      destruct (Storage.insert_movement a b c d e g st) as [?|[?|?|?|?]|?|] eqn:E;
      try (unfold Storage.insert_movement in E; split_matches E; discriminate)
  end;
  cbn [perform awaiting rollback_and_fail execute outcome fails inserted session_of
       stored log unsaved broken apply_changes fold_left app fst snd].

(** Every way the creation of a product can go. *)
Lemma creation_outcome S auth uid b c sto :
  unsaved c = [] ->
  let iq := default_to (VNumber (Num 0)) (initial_quantity b) in
  let out := perform sto (create_product S auth uid b) c in
  unsaved (snd out) = [] /\
  ((fst (fst out) <> 201 /\ stored (snd out) = stored c) \/
   exists p r,
     truthy (name b) = true /\ truthy (price b) = true /\
     inserted sto = inr p /\
     fst out = (201, inr p) /\
     insert_inventory (p_id p) iq
       (default_to (VNumber (Num 0)) (min_stock_level b))
       (default_to (VNumber (Num 1000)) (max_stock_level b))
       (location b) = inr r /\
     ((lt (Num 0) (to_number S iq) = false /\
       stored (snd out) =
         apply_changes (stored c) [NewProduct p; NewInventory r]) \/
      (lt (Num 0) (to_number S iq) = true /\
       exists m,
         Storage.insert_movement (p_id p) uid (VString "IN") iq VUndefined
           (VString "Initial stock") (stored c) = Written (AddMovement m) /\
         stored (snd out) =
           apply_changes (stored c)
             [NewProduct p; NewInventory r; NewMovement m]))).
Proof.
  destruct c as [st t l]. unfold unsaved. cbn [session_of stored log].
  intros Hu. cbv zeta. unfold create_product.
  destruct (truthy (name b)) eqn:Hn, (truthy (price b)) eqn:Hp; cbn [negb orb];
    try (split; [exact Hu|]; left; split; [cbn; lia | reflexivity]).
  cbn [perform awaiting rollback_and_fail execute outcome fails inserted session_of
       stored log unsaved broken apply_changes fold_left app fst snd].
  destruct t as [|cs|]; [| subst cs |];
    repeat creation_step sto st.
  all: split; [reflexivity|].
  all: try (left; split; [cbn; lia | reflexivity]).
  all: right; eexists _, _; repeat (split; [eassumption || reflexivity|]).
  all: try (left; split; reflexivity).
  all: right; split; [reflexivity|]; eexists; split; [eassumption | reflexivity].
Qed.

(** For a quantity the INTEGER column accepts, and a reading of texts
    that is right on integers, [initial_quantity > 0] compares the
    stored number. *)
Lemma positive_reading S v z :
  reads_integers S ->
  required int4_in (bind v) = Some z ->
  lt (Num 0) (to_number S v) = (0 <? z).
Proof.
  intros HS Hv. destruct v as [| |[|]|[|n]|s]; try discriminate.
  - cbn [bind to_string required] in Hv. rewrite int4_in_number in Hv.
    destruct (in_int4 n); [|discriminate]. inversion Hv. reflexivity.
  - cbn [bind to_string required] in Hv. cbn [to_number]. rewrite (HS s z Hv).
    reflexivity.
Qed.

Lemma inventory_inserted pid q mn mx loc r :
  insert_inventory pid q mn mx loc = inr r ->
  Storage.product_id r = pid /\
  required int4_in (bind q) = Some (Storage.quantity r).
Proof.
  unfold insert_inventory.
  destruct (required int4_in (bind (VNumber (Num pid)))) as [pid'|] eqn:Epid;
    [|discriminate].
  destruct (number_accepted _ _ Epid) as (-> & _).
  destruct (required int4_in (bind q)), (nullable int4_in (bind mn)),
    (nullable int4_in (bind mx)), (nullable (varchar 255) (bind loc));
    try discriminate.
  intros H; inversion H. split; reflexivity.
Qed.

Lemma initial_movement pid uid q z st m :
  required int4_in (bind q) = Some z ->
  Storage.insert_movement pid uid (VString "IN") q VUndefined
    (VString "Initial stock") st = Written (AddMovement m) ->
  m = {| m_product_id := pid; m_user_id := uid; m_movement_type := "IN";
         m_quantity := z; m_reference_number := None;
         m_notes := Some "Initial stock" |}.
Proof.
  intros Hq H. unfold Storage.insert_movement in H. rewrite Hq in H.
  cbn in H. destruct (references_user uid st); [|discriminate].
  inversion H. reflexivity.
Qed.

(** X18: [POST /api/products] is all or nothing, for any answer of the
    storage and any failure: either the answer is not 201 and the
    tables are as they were, or it is 201 with the row the storage
    returned, and the tables have gained that product, one inventory
    row for it holding the initial quantity (0 when the request has
    none), and, only when [initial_quantity > 0] holds as JavaScript
    compares it, one movement row of type IN for the same quantity
    with the note "Initial stock"; with a reading of texts that is
    right on integers that is when the quantity is positive. *)
Theorem create_product_all_or_nothing S auth uid b c sto :
  unsaved c = [] ->
  let out := perform sto (create_product S auth uid b) c in
  (fst (fst out) <> 201 /\ stored (snd out) = stored c) \/
  exists p r,
    inserted sto = inr p /\
    fst out = (201, inr p) /\
    Storage.product_id r = p_id p /\
    required int4_in
      (bind (default_to (VNumber (Num 0)) (initial_quantity b))) =
      Some (Storage.quantity r) /\
    categories (stored (snd out)) = categories (stored c) /\
    products (stored (snd out)) = products (stored c) ++ [p] /\
    inventory (stored (snd out)) = inventory (stored c) ++ [r] /\
    stock_movements (stored (snd out)) =
      stock_movements (stored c)
      ++ (if lt (Num 0)
               (to_number S (default_to (VNumber (Num 0)) (initial_quantity b)))
          then [{| m_product_id := p_id p; m_user_id := uid;
                   m_movement_type := "IN";
                   m_quantity := Storage.quantity r;
                   m_reference_number := None;
                   m_notes := Some "Initial stock" |}]
          else []) /\
    (reads_integers S ->
     stock_movements (stored (snd out)) =
       stock_movements (stored c)
       ++ (if 0 <? Storage.quantity r
           then [{| m_product_id := p_id p; m_user_id := uid;
                    m_movement_type := "IN";
                    m_quantity := Storage.quantity r;
                    m_reference_number := None;
                    m_notes := Some "Initial stock" |}]
           else [])).
Proof.
  intros Hu. cbv zeta.
  destruct (creation_outcome S auth uid b c sto Hu) as (_ & [H | H]);
    [left; exact H|].
  destruct H as (p & r & _ & _ & Hp & Hout & Hr & Hm).
  destruct (inventory_inserted _ _ _ _ _ _ Hr) as [Hpid Hq].
  right. exists p, r.
  split; [exact Hp|]. split; [exact Hout|]. split; [exact Hpid|].
  split; [exact Hq|].
  assert (Hmov :
    stock_movements (stored (snd (perform sto (create_product S auth uid b) c))) =
      stock_movements (stored c)
      ++ (if lt (Num 0)
               (to_number S (default_to (VNumber (Num 0)) (initial_quantity b)))
          then [{| m_product_id := p_id p; m_user_id := uid;
                   m_movement_type := "IN";
                   m_quantity := Storage.quantity r;
                   m_reference_number := None;
                   m_notes := Some "Initial stock" |}]
          else [])).
  { destruct Hm as [[Hz ->] | (Hz & m & Hm & ->)]; rewrite Hz;
      cbn [apply_changes fold_left apply_change stock_movements].
    - rewrite app_nil_r. reflexivity.
    - rewrite (initial_movement _ _ _ _ _ _ Hq Hm). reflexivity. }
  assert (Hrest :
    categories (stored (snd (perform sto (create_product S auth uid b) c))) =
      categories (stored c) /\
    products (stored (snd (perform sto (create_product S auth uid b) c))) =
      products (stored c) ++ [p] /\
    inventory (stored (snd (perform sto (create_product S auth uid b) c))) =
      inventory (stored c) ++ [r]).
  { destruct Hm as [[_ ->] | (_ & m & _ & ->)];
      cbn [apply_changes fold_left apply_change categories products inventory];
      repeat split. }
  destruct Hrest as (H1 & H2 & H3).
  split; [exact H1|]. split; [exact H2|]. split; [exact H3|].
  split; [exact Hmov|].
  intros HS. rewrite Hmov, (positive_reading S _ _ HS Hq). reflexivity.
Qed.

Lemma integer_reading_reads : reads_integers integer_reading.
Proof.
  intros text z H. unfold integer_reading. rewrite H. reflexivity.
Qed.

(** Ten nails: product, inventory row and movement row are stored
    together. *)
Lemma create_product_example :
  fst (perform Samples.obliging
         (create_product integer_reading false None
            (Samples.nail_body (VNumber (Num 10))))
         (Samples.quiet (Scenario.shop 5))) = (201, inr Samples.nail) /\
  inventory (stored (snd (perform Samples.obliging
         (create_product integer_reading false None
            (Samples.nail_body (VNumber (Num 10))))
         (Samples.quiet (Scenario.shop 5))))) =
    [Scenario.stock 5 10;
     {| Storage.product_id := 3; Storage.quantity := 10;
        Storage.min_stock_level := Some 0; Storage.max_stock_level := Some 1000;
        Storage.location := None |}].
Proof.
  destruct (create_product_all_or_nothing integer_reading false None
              (Samples.nail_body (VNumber (Num 10)))
              (Samples.quiet (Scenario.shop 5)) Samples.obliging
              eq_refl) as [[H _] | _];
    [exfalso; apply H; reflexivity|].
  split; reflexivity.
Defined.

(** X19: [POST /api/products] succeeds when nothing stands in its way:
    on a client with no transaction open, with a name and a price, a
    storage that returns the product row and fails on no statement,
    values the columns of [inventory] accept and, where a movement row
    is written, a user who is in [users], the answer is 201 with that
    row, and product, inventory row and (only when [initial_quantity >
    0] holds as JavaScript compares it) movement row are stored.  The
    sign of the initial quantity is not checked: a negative one is
    stored as it is, without a movement. *)
Theorem create_product_succeeds S auth uid b c sto p r :
  session_of c = Quiet ->
  (forall s, fails sto s = None) ->
  inserted sto = inr p ->
  truthy (name b) = true ->
  truthy (price b) = true ->
  insert_inventory (p_id p)
    (default_to (VNumber (Num 0)) (initial_quantity b))
    (default_to (VNumber (Num 0)) (min_stock_level b))
    (default_to (VNumber (Num 1000)) (max_stock_level b))
    (location b) = inr r ->
  (lt (Num 0) (to_number S (default_to (VNumber (Num 0)) (initial_quantity b)))
     = true ->
   references_user uid (stored c) = true) ->
  fst (perform sto (create_product S auth uid b) c) = (201, inr p) /\
  categories (stored (snd (perform sto (create_product S auth uid b) c))) =
    categories (stored c) /\
  products (stored (snd (perform sto (create_product S auth uid b) c))) =
    products (stored c) ++ [p] /\
  inventory (stored (snd (perform sto (create_product S auth uid b) c))) =
    inventory (stored c) ++ [r] /\
  stock_movements (stored (snd (perform sto (create_product S auth uid b) c))) =
    stock_movements (stored c)
    ++ (if lt (Num 0)
             (to_number S (default_to (VNumber (Num 0)) (initial_quantity b)))
        then [{| m_product_id := p_id p; m_user_id := uid;
                 m_movement_type := "IN";
                 m_quantity := Storage.quantity r;
                 m_reference_number := None;
                 m_notes := Some "Initial stock" |}]
        else []).
Proof.
  intros Hq Hf Hp Hn Hpr Hr Huser.
  destruct (inventory_inserted _ _ _ _ _ _ Hr) as [Hpid Hz].
  destruct c as [st t l]. cbn [session_of] in Hq. subst t.
  cbn [stored] in Huser.
  unfold create_product. rewrite Hn, Hpr. cbn [negb orb stored].
  cbn [perform awaiting rollback_and_fail fst snd].
  assert (Hmove : forall v,
            users v = users st ->
            lt (Num 0)
               (to_number S (default_to (VNumber (Num 0)) (initial_quantity b)))
              = true ->
            Storage.insert_movement (p_id p) uid (VString "IN")
              (default_to (VNumber (Num 0)) (initial_quantity b)) VUndefined
              (VString "Initial stock") v =
            Written (AddMovement
                   {| m_product_id := p_id p; m_user_id := uid;
                      m_movement_type := "IN";
                      m_quantity := Storage.quantity r;
                      m_reference_number := None;
                      m_notes := Some "Initial stock" |})).
  { intros v Hv Hpos. rewrite (insert_movement_users _ _ _ _ _ _ st v Hv).
    unfold Storage.insert_movement. rewrite Hz, (Huser Hpos). reflexivity. }
  destruct (lt (Num 0) _) eqn:Epos.
  - specialize (fun v Hv => Hmove v Hv eq_refl).
    repeat (rewrite exec_fails, Hf;
            cbn [perform awaiting rollback_and_fail execute outcome fails inserted
                 session_of stored log unsaved broken apply_changes fold_left
                 apply_change app fst snd categories products inventory
                 stock_movements];
            rewrite ?Hp, ?Hr;
            try match goal with
                | |- context [Storage.insert_movement _ _ _ _ _ _ ?v] =>
                    rewrite (Hmove v eq_refl)
                end;
            cbn [perform awaiting rollback_and_fail execute outcome fails inserted
                 session_of stored log unsaved broken apply_changes fold_left
                 apply_change app fst snd categories products inventory
                 stock_movements]).
    repeat split.
  - clear Hmove.
    repeat (rewrite exec_fails, Hf;
            cbn [perform awaiting rollback_and_fail execute outcome fails inserted
                 session_of stored log unsaved broken apply_changes fold_left
                 apply_change app fst snd categories products inventory
                 stock_movements];
            rewrite ?Hp, ?Hr;
            cbn [perform awaiting rollback_and_fail execute outcome fails inserted
                 session_of stored log unsaved broken apply_changes fold_left
                 apply_change app fst snd categories products inventory
                 stock_movements]).
    rewrite ?app_nil_r. repeat split.
Qed.

(** A product may start with negative stock. *)
Lemma create_product_negative_example :
  fst (perform Samples.obliging
         (create_product integer_reading true (Some 9)
            (Samples.nail_body (VNumber (Num (-5)))))
         (Samples.quiet Samples.warehouse)) = (201, inr Samples.nail) /\
  inventory (stored (snd (perform Samples.obliging
         (create_product integer_reading true (Some 9)
            (Samples.nail_body (VNumber (Num (-5)))))
         (Samples.quiet Samples.warehouse)))) =
    [Scenario.stock 5 10; Samples.hammer_stock;
     {| Storage.product_id := 3; Storage.quantity := -5;
        Storage.min_stock_level := Some 0; Storage.max_stock_level := Some 1000;
        Storage.location := None |}] /\
  stock_movements (stored (snd (perform Samples.obliging
         (create_product integer_reading true (Some 9)
            (Samples.nail_body (VNumber (Num (-5)))))
         (Samples.quiet Samples.warehouse)))) = [Samples.hammer_receipt].
Proof.
  destruct (create_product_succeeds integer_reading true (Some 9)
              (Samples.nail_body (VNumber (Num (-5))))
              (Samples.quiet Samples.warehouse) Samples.obliging Samples.nail
              {| Storage.product_id := 3; Storage.quantity := -5;
                 Storage.min_stock_level := Some 0;
                 Storage.max_stock_level := Some 1000;
                 Storage.location := None |}
              eq_refl (fun _ => eq_refl) eq_refl
              eq_refl eq_refl eq_refl (fun _ => eq_refl))
    as (H1 & _ & _ & H4 & H5).
  split; [exact H1|].
  split; [rewrite H4; reflexivity | rewrite H5; reflexivity].
Defined.

(** The tables after a creation, by the row of the product. *)
Lemma creation_changes S auth uid b c sto :
  unsaved c = [] ->
  let out := perform sto (create_product S auth uid b) c in
  (fst (fst out) <> 201 /\ stored (snd out) = stored c) \/
  exists p r ms,
    inserted sto = inr p /\
    fst out = (201, inr p) /\
    Storage.product_id r = p_id p /\
    required int4_in
      (bind (default_to (VNumber (Num 0)) (initial_quantity b))) =
      Some (Storage.quantity r) /\
    Forall (fun m => m_product_id m = p_id p) ms /\
    stored (snd out) =
      {| categories := categories (stored c);
         products := products (stored c) ++ [p];
         inventory := inventory (stored c) ++ [r];
         stock_movements := stock_movements (stored c) ++ ms;
         users := users (stored c) |}.
Proof.
  intros Hu. cbv zeta.
  destruct (creation_outcome S auth uid b c sto Hu) as (_ & [H | H]);
    [left; exact H|].
  destruct H as (p & r & _ & _ & Hp & Hout & Hr & Hm).
  destruct (inventory_inserted _ _ _ _ _ _ Hr) as [Hpid Hq].
  right.
  destruct Hm as [[_ ->] | (_ & m & Hm & ->)].
  - exists p, r, []. repeat (split; [assumption || constructor|]).
    cbn [apply_changes fold_left apply_change categories products inventory
         stock_movements].
    rewrite app_nil_r. reflexivity.
  - exists p, r, [m]. rewrite (initial_movement _ _ _ _ _ _ Hq Hm) at 1.
    repeat (split; [assumption || (constructor; [reflexivity | constructor])|]).
    reflexivity.
Qed.

Lemma rows_of_fresh pid st :
  Forall (fun i => In (Storage.product_id i) (map p_id (products st)))
         (inventory st) ->
  ~ In pid (map p_id (products st)) ->
  filter (fun r => Storage.product_id r =? pid) (inventory st) = [].
Proof.
  intros Hall Hfresh. induction Hall as [|i l Hi _ IH]; [reflexivity|].
  cbn [filter]. destruct (Z.eqb_spec (Storage.product_id i) pid) as [E|E].
  - exfalso. apply Hfresh. rewrite <- E. exact Hi.
  - exact IH.
Qed.

Lemma in_map_app_l {A} (f : A -> Z) x l l' :
  In x (map f l) -> In x (map f (l ++ l')).
Proof. rewrite map_app, in_app_iff. auto. Qed.

(** The inventory rows of a product just created. *)
Lemma rows_of_created st p r ms :
  integrity st ->
  ~ In (p_id p) (map p_id (products st)) ->
  Storage.product_id r = p_id p ->
  rows_of (p_id p)
    {| categories := categories st;
       products := products st ++ [p];
       inventory := inventory st ++ [r];
       stock_movements := stock_movements st ++ ms;
       users := users st |} = [r].
Proof.
  intros (_ & _ & Hinv) Hfresh Hr. unfold rows_of. cbn [inventory].
  rewrite filter_app, (rows_of_fresh _ _ Hinv Hfresh). cbn [filter app].
  rewrite Hr, Z.eqb_refl. reflexivity.
Qed.

(** X20: [POST /api/products] keeps the tables consistent: when the id the
    storage gives the product is new, as a key makes it, then after the
    call, whatever its answer, product and category ids are still
    unique, every inventory row and every movement row still belongs to
    a product, and after an answer 201 the product has exactly one
    inventory row. *)
Theorem create_product_consistent S auth uid b c sto p :
  unsaved c = [] ->
  integrity (stored c) ->
  movement_references (stored c) ->
  inserted sto = inr p ->
  ~ In (p_id p) (map p_id (products (stored c))) ->
  let out := perform sto (create_product S auth uid b) c in
  integrity (stored (snd out)) /\
  movement_references (stored (snd out)) /\
  (fst (fst out) = 201 ->
   exists r, rows_of (p_id p) (stored (snd out)) = [r]).
Proof.
  intros Hu Hint Hmov Hp Hfresh. cbv zeta.
  destruct (creation_changes S auth uid b c sto Hu)
    as [[Hno ->] | (p' & r & ms & Hp' & Hout & Hr & _ & Hms & ->)].
  - split; [exact Hint|]. split; [exact Hmov|]. intros H. contradiction.
  - rewrite Hp in Hp'. inversion Hp'; subst p'. clear Hp'.
    split; [|split].
    + destruct Hint as (Hprod & Hcat & Hinv).
      split; [|split]; cbn [categories products inventory].
      * rewrite map_app. cbn [map].
        apply NoDup_app; [exact Hprod | |].
        -- constructor; [intros [] | constructor].
        -- intros x Hx [<- | []]. exact (Hfresh Hx).
      * exact Hcat.
      * apply Forall_app. split.
        -- eapply Forall_impl; [|exact Hinv].
           intros i Hi. apply in_map_app_l. exact Hi.
        -- constructor; [|constructor].
           rewrite Hr, map_app, in_app_iff. right. left. reflexivity.
    + unfold movement_references. cbn [products stock_movements].
      apply Forall_app. split.
      * eapply Forall_impl; [|exact Hmov].
        intros m Hm. apply in_map_app_l. exact Hm.
      * eapply Forall_impl; [|exact Hms].
        intros m Hm. cbn beta in Hm. rewrite Hm, map_app, in_app_iff.
        right. left. reflexivity.
    + intros _. exists r. apply rows_of_created; assumption.
Qed.

Lemma shop_integrity q : integrity (Scenario.shop q).
Proof.
  split; [|split]; cbn.
  - constructor; [intros [] | constructor].
  - constructor.
  - constructor; [left; reflexivity | constructor].
Qed.

(** The nail has exactly one inventory row once it is created. *)
Lemma create_product_consistent_example :
  exists r,
    rows_of 3
      (stored (snd (perform Samples.obliging
         (create_product integer_reading false None
            (Samples.nail_body (VNumber (Num 10))))
         (Samples.quiet (Scenario.shop 5))))) = [r].
Proof.
  refine (proj2 (proj2
    (create_product_consistent integer_reading false None
       (Samples.nail_body (VNumber (Num 10)))
       (Samples.quiet (Scenario.shop 5)) Samples.obliging Samples.nail
       eq_refl (shop_integrity 5) _ eq_refl _)) eq_refl).
  - constructor.
  - cbn. intros [H | []]. discriminate H.
Defined.

(** X21: The first adjustment of a product sees the stock it was created
    with: after [POST /api/products] has answered 201, an adjust call
    for the new product that succeeds reports as [old_quantity] the
    initial quantity of the creation, and as [new_quantity] what its
    movement type makes of it. *)
Theorem adjust_after_create S auth uid b c sto p f uid' body :
  unsaved c = [] ->
  integrity (stored c) ->
  inserted sto = inr p ->
  ~ In (p_id p) (map p_id (products (stored c))) ->
  let created := perform sto (create_product S auth uid b) c in
  fst (fst created) = 201 ->
  let out :=
    Server.run f (adjust uid' (p_id p) body)
      {| committed := stored (snd created); txn := Idle; sent := [] |} in
  status (fst out) = 200 ->
  exists z new,
    required int4_in
      (bind (default_to (VNumber (Num 0)) (initial_quantity b))) = Some z /\
    switch_movement_type (movement_type body) (quantity body) (Num z) =
      inr (Num new) /\
    fst out =
      {| status := 200;
         json := AdjustedBody "Inventory adjusted successfully"
                   (Num z) (Num new) |}.
Proof.
  intros Hu Hint Hp Hfresh. cbv zeta. intros Hcreated Hok.
  destruct (creation_changes S auth uid b c sto Hu)
    as [[Hno _] | (p' & r & ms & Hp' & _ & Hr & Hq & _ & Hst)];
    [contradiction|].
  rewrite Hp in Hp'. inversion Hp'; subst p'. clear Hp'.
  pose proof (rows_of_created (stored c) p r ms Hint Hfresh Hr) as Hrows.
  rewrite <- Hst in Hrows.
  destruct (Atomicity.adjust_outcome f uid' (p_id p) body
              {| committed := stored (snd (perform sto (create_product S auth uid b) c));
                 txn := Idle; sent := [] |} eq_refl)
    as (new & _ & _ & [[Hno _] | (_ & _ & _ & row & others & z & m & Hrow
                                    & Hsw & _ & _ & Hans & _)]);
    [contradiction|].
  cbn [committed] in Hrow. rewrite Hrows in Hrow.
  inversion Hrow; subst row others.
  exists (Storage.quantity r), z.
  split; [exact Hq|]. split; [exact Hsw | exact Hans].
Qed.

(** Ten nails created, four taken out: the answer is (10, 6). *)
Lemma adjust_after_create_example :
  fst (Server.run reliable
         (adjust None 3 (Scenario.request_body (Scenario.number 4) (VString "OUT")))
         {| committed :=
              stored (snd (perform Samples.obliging
                (create_product integer_reading false None
                   (Samples.nail_body (VNumber (Num 10))))
                (Samples.quiet (Scenario.shop 5))));
            txn := Idle; sent := [] |}) =
    {| status := 200;
       json := AdjustedBody "Inventory adjusted successfully" (Num 10) (Num 6) |}.
Proof.
  assert (Hfresh : ~ In (p_id Samples.nail)
                       (map p_id (products (Scenario.shop 5)))).
  { cbn. intros [H | []]. discriminate H. }
  destruct (adjust_after_create integer_reading false None
              (Samples.nail_body (VNumber (Num 10)))
              (Samples.quiet (Scenario.shop 5)) Samples.obliging Samples.nail
              reliable None
              (Scenario.request_body (Scenario.number 4) (VString "OUT"))
              eq_refl (shop_integrity 5) eq_refl Hfresh eq_refl eq_refl) as (z & new & Hz & Hsw & Hans).
  vm_compute in Hz. inversion Hz; subst z.
  vm_compute in Hsw. inversion Hsw; subst new.
  exact Hans.
Defined.

End CreationFacts.
